(** * SitePulse: the pinger worker of [app.py]

    A shallow embedding of [pinger_worker] (app.py, lines 34-76) and of the
    few library operations it relies on, followed by the properties of the
    scheduler that the specification states about it.

    Conventions of the embedding.
    - Firestore documents are finite maps from field names to values
      ([gmap string value]); the store maps document references to
      documents.
    - Python floats are modelled by exact rationals extended with the two
      infinities and NaN ([pyfloat]); rounding is not modelled.
    - Python exceptions are values of [exn]; a computation is a function
      from a [state] to an [outcome] and a new state (monad [M]).
    - Everything the worker obtains from outside (clock readings, streamed
      snapshots, HTTP outcomes, server timestamps, transport faults) is read
      from a [world] oracle, indexed by a step counter kept in the state. *)

From Stdlib Require Import ZArith QArith Lia Ascii.
From stdpp Require Import gmap strings list fin_maps.

Local Open Scope Z_scope.

(** ** Python values held in Firestore documents *)

(** A Python float: a finite value, an infinity, or NaN. *)
Inductive pyfloat : Type :=
| Fin (q : Q)
| PInf
| NInf
| NaN.

(** The values [monitor.to_dict()] can hold, plus the write sentinel
    [firestore.SERVER_TIMESTAMP], which is never stored but is the default
    of [monitor_data.get('lastChecked', ...)] and part of update payloads.
    [VStr] stands for text and byte strings alike; [VOther] is a value of
    one of the remaining Firestore types (array, map, geopoint, reference),
    of which the worker observes only the truth value. *)
Inductive value : Type :=
| VNone
| VBool (b : bool)
| VInt (z : Z)
| VFloat (f : pyfloat)
| VStr (s : string)
| VTimestamp (t : Q)
| VSentinel
| VOther (nonempty : bool).

Inductive net_failure : Type :=
| ConnectionRefused
| DNSFailure
| Timeout
| TLSFailure
| TooManyRedirects
| InvalidURL.

(** Exceptions; all of them are subclasses of [Exception] (interrupts and
    [SystemExit] are not modelled). [NotFound] and [StoreUnavailable] are
    raised by the Firestore client, [RequestException] by [requests]. *)
Inductive exn : Type :=
| TypeError
| ValueError
| OverflowError
| NotFound
| StoreUnavailable
| RequestException (k : net_failure)
| OtherError.

Inductive outcome (A : Type) : Type :=
| Ok (a : A)
| Raise (e : exn).
Arguments Ok {A} a.
Arguments Raise {A} e.

Abbreviation doc := (gmap string value).
Abbreviation ref := (string * string)%type.

(** ** Built-in operations used by the worker *)

Definition Qltb (a b : Q) : bool := (Qnum a * QDen b <? Qnum b * QDen a).

(** [dict.get(key, default)] *)
Definition dict_get (d : doc) (key : string) (default : value) : value :=
  match d !! key with
  | Some v => v
  | None => default
  end.

(** [hasattr(v, 'timestamp')]: only Firestore timestamps (datetimes) have
    the attribute. *)
Definition has_timestamp (v : value) : bool :=
  match v with
  | VTimestamp _ => true
  | _ => false
  end.

(** [v.timestamp()] for a value that has the attribute. *)
Definition timestamp (v : value) : value :=
  match v with
  | VTimestamp t => VFloat (Fin t)
  | _ => v
  end.

(** Truth value of a Python object ([if not url]). *)
Definition truthy (v : value) : bool :=
  match v with
  | VNone => false
  | VBool b => b
  | VInt z => negb (z =? 0)
  | VFloat (Fin q) => negb (Qnum q =? 0)
  | VFloat _ => true
  | VStr s => negb (String.eqb s "")
  | VTimestamp _ => true
  | VSentinel => true
  | VOther nonempty => nonempty
  end.

(** *** [int(x)] *)

Definition is_space (c : ascii) : bool :=
  let n := Ascii.nat_of_ascii c in
  ((9 <=? n) && (n <=? 13) || (28 <=? n) && (n <=? 32))%nat.

Definition digit_of (c : ascii) : option Z :=
  let n := Z.of_nat (Ascii.nat_of_ascii c) in
  if (48 <=? n) && (n <=? 57) then Some (n - 48) else None.

Fixpoint lstrip (s : list ascii) : list ascii :=
  match s with
  | c :: s' => if is_space c then lstrip s' else s
  | [] => []
  end.

Definition strip (s : list ascii) : list ascii :=
  rev (lstrip (rev (lstrip s))).

(** Decimal digits, single underscores allowed between two digits. *)
Fixpoint parse_digits (s : list ascii) (acc : Z) (after_digit : bool) : option Z :=
  match s with
  | [] => if after_digit then Some acc else None
  | c :: s' =>
      match digit_of c with
      | Some d => parse_digits s' (10 * acc + d) true
      | None =>
          if Ascii.eqb c "_"%char && after_digit then parse_digits s' acc false
          else None
      end
  end.

(** [int(s)] for a string in base 10: surrounding white space, an
    optional sign, digits. Only ASCII digits are read; the decimal digits
    of other scripts, which Python accepts in text, are not. *)
Definition int_of_string (s : string) : option Z :=
  match strip (String.list_ascii_of_string s) with
  | c :: s' =>
      if Ascii.eqb c "-"%char then Z.opp <$> parse_digits s' 0 false
      else if Ascii.eqb c "+"%char then parse_digits s' 0 false
      else parse_digits (c :: s') 0 false
  | [] => None
  end.

(** [int(v)]: integers as they are, floats truncated toward zero, strings
    parsed; [ValueError] for text that is no integer and for NaN,
    [OverflowError] for the infinities, [TypeError] otherwise. *)
Definition py_int (v : value) : outcome Z :=
  match v with
  | VInt z => Ok z
  | VBool b => Ok (if b then 1 else 0)
  | VFloat (Fin q) => Ok (Z.quot (Qnum q) (Z.pos (Qden q)))
  | VFloat NaN => Raise ValueError
  | VFloat _ => Raise OverflowError
  | VStr s =>
      match int_of_string s with
      | Some z => Ok z
      | None => Raise ValueError
      end
  | VNone | VTimestamp _ | VSentinel | VOther _ => Raise TypeError
  end.

(** [now - v] where [now] is a finite float: defined for numbers only. *)
Definition py_sub (now : Q) (v : value) : outcome pyfloat :=
  match v with
  | VInt z => Ok (Fin (now - inject_Z z))
  | VBool b => Ok (Fin (now - inject_Z (if b then 1 else 0)))
  | VFloat (Fin q) => Ok (Fin (now - q))
  | VFloat PInf => Ok NInf
  | VFloat NInf => Ok PInf
  | VFloat NaN => Ok NaN
  | VNone | VStr _ | VTimestamp _ | VSentinel | VOther _ => Raise TypeError
  end.

(** [x > i] for a float and an integer (Python compares them exactly). *)
Definition py_gt (x : pyfloat) (i : Z) : bool :=
  match x with
  | Fin q => Qltb (inject_Z i) q
  | PInf => true
  | NInf | NaN => false
  end.

(** ** Snapshots, streams and the outside world *)

(** A [DocumentSnapshot]: the reference of the document and the data it
    held when it was read ([to_dict] does not read the store again). *)
Record snapshot : Type := mkSnapshot {
  reference : ref;
  to_dict : doc
}.

(** What iterating over [collection.stream()] yields: the items, then
    either the end of the stream or an exception of the client. *)
Record stream (A : Type) : Type := mkStream {
  items : list A;
  failure : option exn
}.
Arguments mkStream {A} items failure.
Arguments items {A} s.
Arguments failure {A} s.

(** A document of [users] with the stream of its [monitors]
    sub-collection. *)
Record user_doc : Type := mkUser {
  user_id : string;
  monitors_stream : stream snapshot
}.

(** What [requests.get] does: it returns a response or raises. *)
Inductive http_result : Type :=
| Response (status_code : Z)
| Fails (e : exn).

(** [response.ok] of [requests]: false exactly when [raise_for_status]
    raises, which it does for a status code from 400 to 599. *)
Definition response_ok (status_code : Z) : bool :=
  negb ((400 <=? status_code) && (status_code <? 600)).

(** The environment of the worker, consulted at the step counter of the
    state: [time.time()], [db.collection('users').stream()],
    [requests.get(url, ...)], the transport fault (if any) of an update
    call, and the time the server substitutes for [SERVER_TIMESTAMP]. *)
Record world : Type := mkWorld {
  time_time : nat -> Q;
  users_stream : nat -> stream user_doc;
  requests_get : nat -> value -> http_result;
  update_fault : nat -> option exn;
  server_time : nat -> Q
}.

Inductive log_record : Type :=
| LogStarted
| LogPinged (url : value) (status : string)
| LogLoopError (e : exn).

(** Observable actions of the worker. [EvUpdate] records a call of
    [reference.update] with its payload and how it ended ([None]: the
    document was written). *)
Inductive event : Type :=
| EvProbe (r : ref) (url : value) (res : http_result)
| EvUpdate (r : ref) (payload : doc) (res : option exn)
| EvLog (l : log_record)
| EvSleep (secs : Z).

Record state : Type := mkState {
  store : gmap ref doc;
  steps : nat;
  trace : list event
}.

(** ** The monad of the worker: state and exceptions *)

Definition M (A : Type) : Type := state -> outcome A * state.

Definition ret {A} (a : A) : M A := fun s => (Ok a, s).

Definition raise {A} (e : exn) : M A := fun s => (Raise e, s).

Definition lift {A} (o : outcome A) : M A := fun s => (o, s).

Definition bind {A B} (m : M A) (f : A -> M B) : M B := fun s =>
  match m s with
  | (Ok a, s') => f a s'
  | (Raise e, s') => (Raise e, s')
  end.

Notation "'let*' x ':=' m 'in' k" := (bind m (fun x => k))
  (at level 10, x binder, m at level 100, k at level 200).

(** [try: m  except <handled>: h] *)
Definition try_except {A} (m : M A) (handled : exn -> bool) (h : exn -> M A) : M A :=
  fun s =>
    match m s with
    | (Raise e, s') => if handled e then h e s' else (Raise e, s')
    | r => r
    end.

(** Advance the step counter and return its previous value. *)
Definition tick : M nat := fun s =>
  (Ok (steps s), {| store := store s; steps := S (steps s); trace := trace s |}).

Definition emit (ev : event) : M unit := fun s =>
  (Ok tt, {| store := store s; steps := steps s; trace := trace s ++ [ev] |}).

(** [for x in l: acc = body(x, acc)] *)
Fixpoint for_each {A S} (body : A -> S -> M S) (l : list A) (acc : S) : M S :=
  match l with
  | [] => ret acc
  | x :: l' => let* acc' := body x acc in for_each body l' acc'
  end.

(** The same loop over a stream, which may end in an exception. *)
Definition for_stream {A S} (body : A -> S -> M S) (st : stream A) (acc : S) : M S :=
  let* acc' := for_each body (items st) acc in
  match failure st with
  | Some e => raise e
  | None => ret acc'
  end.

(** ** Store and network operations *)

Definition call_time (w : world) : M Q :=
  let* k := tick in ret (time_time w k).

Definition stream_users (w : world) : M (stream user_doc) :=
  let* k := tick in ret (users_stream w k).

(** The server replaces the sentinel by its own time. *)
Definition resolve (now : Q) (v : value) : value :=
  match v with
  | VSentinel => VTimestamp now
  | _ => v
  end.

(** [reference.update(field_updates)]: the named fields of an existing
    document are overwritten, the others kept; [NotFound] if the document
    does not exist. *)
Definition update (w : world) (r : ref) (field_updates : doc) : M unit := fun s =>
  let k := steps s in
  match update_fault w k, store s !! r with
  | Some e, _ =>
      (Raise e, {| store := store s; steps := S k;
                   trace := trace s ++ [EvUpdate r field_updates (Some e)] |})
  | None, None =>
      (Raise NotFound, {| store := store s; steps := S k;
                          trace := trace s ++ [EvUpdate r field_updates (Some NotFound)] |})
  | None, Some d =>
      (Ok tt, {| store := <[r := (resolve (server_time w k) <$> field_updates) ∪ d]> (store s);
                 steps := S k;
                 trace := trace s ++ [EvUpdate r field_updates None] |})
  end.

(** The payload of lines 68-71. *)
Abbreviation status_update status :=
  ({[ "status"%string := VStr status; "lastChecked"%string := VSentinel ]} : doc).

Definition is_request_exception (e : exn) : bool :=
  match e with
  | RequestException _ => true
  | _ => false
  end.

Definition sleep (secs : Z) : M unit := emit (EvSleep secs).

(** ** [pinger_worker] *)

(** Lines 47-53 for a clock reading [now]: is the monitor due? *)
Definition is_due (now : Q) (monitor_data : doc) : outcome bool :=
  let last_checked := dict_get monitor_data "lastChecked" VSentinel in
  let last_checked :=
    if has_timestamp last_checked then timestamp last_checked else last_checked in
  match py_int (dict_get monitor_data "interval" (VInt 60)) with
  | Raise e => Raise e
  | Ok interval =>
      match py_sub now last_checked with
      | Raise e => Raise e
      | Ok elapsed => Ok (py_gt elapsed interval)
      end
  end.

(** Lines 47-53: the body of the inner loop of the selection. *)
Definition check_monitor (w : world) (monitor : snapshot)
    (monitors_to_check : list snapshot) : M (list snapshot) :=
  let monitor_data := to_dict monitor in
  let last_checked := dict_get monitor_data "lastChecked" VSentinel in
  let last_checked :=
    if has_timestamp last_checked then timestamp last_checked else last_checked in
  let* interval := lift (py_int (dict_get monitor_data "interval" (VInt 60))) in
  let* now := call_time w in
  let* elapsed := lift (py_sub now last_checked) in
  if py_gt elapsed interval then ret (monitors_to_check ++ [monitor])
  else ret monitors_to_check.

(** Lines 42-53: the two nested loops that fill [monitors_to_check]. *)
Definition select_due (w : world) : M (list snapshot) :=
  let* users := stream_users w in
  for_stream
    (fun user monitors_to_check =>
       for_stream (check_monitor w) (monitors_stream user) monitors_to_check)
    users [].

(** Lines 59-66: one GET; [status] is ['up'] if [response.ok], ['down']
    otherwise and when a [requests.RequestException] is raised. *)
Definition probe_status (w : world) (r : ref) (url : value) : M string :=
  try_except
    (let* k := tick in
     let res := requests_get w k url in
     let* _ := emit (EvProbe r url res) in
     match res with
     | Response status_code => ret (if response_ok status_code then "up" else "down")
     | Fails e => raise e
     end)
    is_request_exception
    (fun _ => ret "down").

(** Lines 56-72: the body of the second loop. *)
Definition process_monitor (w : world) (monitor : snapshot) (_ : unit) : M unit :=
  let monitor_data := to_dict monitor in
  let url := dict_get monitor_data "url" VNone in
  if negb (truthy url) then ret tt
  else
    let* status := probe_status w (reference monitor) url in
    let* _ := update w (reference monitor)
      {[ "status" := VStr status; "lastChecked" := VSentinel ]} in
    emit (EvLog (LogPinged url status)).

(** Lines 42-72: the body of the [try]. *)
Definition run_cycle (w : world) : M unit :=
  let* monitors_to_check := select_due w in
  for_each (process_monitor w) monitors_to_check tt.

(** Lines 41-74: [try: ... except Exception as e: logging.error(...)]. *)
Definition cycle (w : world) : M unit :=
  try_except (run_cycle w) (fun _ => true)
    (fun e => emit (EvLog (LogLoopError e))).

(** Lines 37-76: one iteration of [while True]; [db] tells whether the
    global [db] is set. *)
Definition loop_iteration (w : world) (db : bool) : M unit :=
  if negb db then sleep 60
  else let* _ := cycle w in sleep 5.

(** The first [n] iterations of the loop. *)
Fixpoint iterate (w : world) (db : bool) (n : nat) : M unit :=
  match n with
  | O => ret tt
  | S n' => let* _ := loop_iteration w db in iterate w db n'
  end.

(** Lines 34-76, cut after [n] iterations. *)
Definition pinger_worker (w : world) (db : bool) (n : nat) : M unit :=
  let* _ := emit (EvLog LogStarted) in iterate w db n.

(** Lines 78-80: the thread is started only when [db] is set. *)
Definition pinger_thread (w : world) (db : bool) (n : nat) : M unit :=
  if db then pinger_worker w db n else ret tt.

(** ** Reading traces *)

(** The events a computation appends to the trace when run from [s]. *)
Definition events_of {A} (m : M A) (s : state) : list event :=
  drop (length (trace s)) (trace (m s).2).

(** References of the documents written, of the monitors probed, and of
    the update calls issued (successful or not). *)
Definition written (evs : list event) : list ref :=
  omap (fun ev => match ev with EvUpdate r _ None => Some r | _ => None end) evs.

Definition probed (evs : list event) : list ref :=
  omap (fun ev => match ev with EvProbe r _ _ => Some r | _ => None end) evs.

Definition update_calls (evs : list event) : list ref :=
  omap (fun ev => match ev with EvUpdate r _ _ => Some r | _ => None end) evs.

Definition sleeps (evs : list event) : list Z :=
  omap (fun ev => match ev with EvSleep n => Some n | _ => None end) evs.

Definition error_logs (evs : list event) : list exn :=
  omap (fun ev => match ev with EvLog (LogLoopError e) => Some e | _ => None end) evs.


(** ** Reading the selection *)

(** All monitors a stream of users yields, in order. *)
Definition flat_monitors (users : stream user_doc) : list snapshot :=
  mjoin ((fun user => items (monitors_stream user)) <$> items users).

(** Does the enumeration end in an exception of the store client? *)
Definition stream_fails (users : stream user_doc) : bool :=
  bool_decide (failure users ≠ None)
  || existsb (fun user => bool_decide (failure (monitors_stream user) ≠ None))
       (items users).

(** Is the monitor found due at the [k]-th step of the world? *)
Definition due_at (w : world) (k : nat) (m : snapshot) : bool :=
  match is_due (time_time w k) (to_dict m) with
  | Ok b => b
  | Raise _ => false
  end.

(** The monitors of [ms] found due when the first is checked at step [k],
    the second at step [k + 1], and so on. *)
Fixpoint due_subset (w : world) (k : nat) (ms : list snapshot) : list snapshot :=
  match ms with
  | [] => []
  | m :: ms' => (if due_at w k m then [m] else []) ++ due_subset w (S k) ms'
  end.


Definition has_url (m : snapshot) : bool :=
  truthy (dict_get (to_dict m) "url" VNone).

(** ** Relations between the state before and after a computation *)

(** [m] takes every state to a state related to it by [R]. *)
Definition preserves {A} (R : state -> state -> Prop) (m : M A) : Prop :=
  forall s, R s (m s).2.

(** Neither the store nor the trace changes. *)
Definition silent (s s' : state) : Prop :=
  store s' = store s /\ trace s' = trace s.

(** The trace grows by events that all satisfy [P]. *)
Definition emits (P : event -> Prop) (s s' : state) : Prop :=
  exists evs, trace s' = trace s ++ evs /\ Forall P evs.

(** What may differ between a document before and after: nothing but
    [status] and [lastChecked], and a changed [status] is ['up'] or
    ['down']. *)
Definition doc_frame (d d' : doc) : Prop :=
  (forall key : string,
      key <> "status"%string -> key <> "lastChecked"%string -> d' !! key = d !! key)
  /\ (d' !! "status" = d !! "status"
      \/ d' !! "status" = Some (VStr "up")
      \/ d' !! "status" = Some (VStr "down")).

(** The same documents exist, each changed within [doc_frame]. *)
Definition store_frame (s s' : state) : Prop :=
  forall r : ref, option_Forall2 doc_frame (store s !! r) (store s' !! r).

(** The computation only appends to the trace. *)
Definition extends {A} (m : M A) : Prop := preserves (emits (fun _ => True)) m.

(** ** Reading the dispatch *)

(** The status a probe yields for an outcome of [requests.get]; an
    exception that is no [RequestException] is not caught. *)
Definition status_of (res : http_result) : outcome string :=
  match res with
  | Response status_code => Ok (if response_ok status_code then "up" else "down")%string
  | Fails e => if is_request_exception e then Ok "down"%string else Raise e
  end.



Definition is_ok {A} (o : outcome A) : bool :=
  match o with Ok _ => true | Raise _ => false end.

(** The classification of probe outcomes that holds of the code: a status
    code from 200 to 399 is ['up']; a status code from 400 to 599 and any
    network failure that [requests] reports are ['down']. *)
Inductive classified : http_result -> string -> Prop :=
| classified_reachable (c : Z) :
    200 <= c <= 399 -> classified (Response c) "up"
| classified_http_error (c : Z) :
    400 <= c <= 599 -> classified (Response c) "down"
| classified_network_failure (k : net_failure) :
    classified (Fails (RequestException k)) "down".

(** Payloads of the update calls of a trace. *)
Definition update_payloads (evs : list event) : list doc :=
  omap (fun ev => match ev with EvUpdate _ p _ => Some p | _ => None end) evs.

(** An update call that names [status] and [lastChecked] and nothing
    else, with ['up'] or ['down'] as status. *)
Definition status_and_last_checked_only (ev : event) : Prop :=
  match ev with
  | EvUpdate _ payload _ =>
      dom payload = ({[ "status"%string; "lastChecked"%string ]} : gset string)
      /\ (payload !! "status" = Some (VStr "up")
          \/ payload !! "status" = Some (VStr "down"))
  | _ => True
  end.

(** The classification as the specification words it: every status code
    from 400 on is ['down']. *)
Inductive classified_as_stated : http_result -> string -> Prop :=
| stated_reachable (c : Z) :
    200 <= c <= 399 -> classified_as_stated (Response c) "up"
| stated_http_error (c : Z) :
    400 <= c -> classified_as_stated (Response c) "down"
| stated_network_failure (k : net_failure) :
    classified_as_stated (Fails (RequestException k)) "down".

(** ** Concrete monitors, stores and worlds *)

Module Scenario.
(** 2025-11-01 12:26:40 UTC *)
Definition now0 : Q := inject_Z 1762000000.

Definition monitor (id : string) (fields : list (string * value)) : snapshot :=
  mkSnapshot ("alice"%string, id) (list_to_map fields).

(** As [add_monitor] creates it (lines 97-101). *)
Definition site_new : snapshot :=
  monitor "new"
    [("name", VStr "New"); ("url", VStr "https://new.example");
     ("interval", VInt 60); ("status", VStr "pending");
     ("lastChecked", VInt 0)]%string.

(** Checked exactly one interval ago. *)
Definition site_boundary : snapshot :=
  monitor "boundary"
    [("url", VStr "https://boundary.example"); ("interval", VInt 60);
     ("status", VStr "up"); ("lastChecked", VInt 1761999940)]%string.

(** Checked 61 seconds ago, the time written by the server. *)
Definition site_overdue : snapshot :=
  monitor "overdue"
    [("url", VStr "https://overdue.example"); ("interval", VInt 60);
     ("status", VStr "up");
     ("lastChecked", VTimestamp (inject_Z 1761999939))]%string.

Definition site_no_url : snapshot :=
  monitor "nourl"
    [("interval", VInt 60); ("status", VStr "pending");
     ("lastChecked", VInt 0)]%string.

Definition site_bad_interval : snapshot :=
  monitor "bad"
    [("url", VStr "https://bad.example"); ("interval", VStr "abc");
     ("status", VStr "pending"); ("lastChecked", VInt 0)]%string.


Definition site_no_last_checked : snapshot :=
  monitor "fresh"
    [("url", VStr "https://fresh.example"); ("interval", VInt 60);
     ("status", VStr "pending")]%string.

(** Listed by the enumeration, deleted before its update. *)
Definition site_vanished : snapshot :=
  monitor "vanished"
    [("url", VStr "https://vanished.example"); ("interval", VInt 60);
     ("status", VStr "up"); ("lastChecked", VInt 0)]%string.

(** Every request is answered with the given status code. *)
Definition answer (status_code : Z) (url : value) : http_result :=
  Response status_code.

(** One user with the given monitors; the clock stands at [now0]; the
    store client never fails. *)
Definition world_of (monitors : list snapshot) (http : value -> http_result) : world :=
  {| time_time := fun _ => now0;
     users_stream := fun _ => mkStream [mkUser "alice" (mkStream monitors None)] None;
     requests_get := fun _ url => http url;
     update_fault := fun _ => None;
     server_time := fun _ => (now0 + 1)%Q |}.

(** The store cannot be reached. *)
Definition world_down : world :=
  {| time_time := fun _ => now0;
     users_stream := fun _ => mkStream [] (Some StoreUnavailable);
     requests_get := fun _ _ => Fails (RequestException ConnectionRefused);
     update_fault := fun _ => Some StoreUnavailable;
     server_time := fun _ => now0 |}.

Definition store_of (monitors : list snapshot) : gmap ref doc :=
  list_to_map ((fun m => (reference m, to_dict m)) <$> monitors).

Definition start (stored : list snapshot) : state :=
  {| store := store_of stored; steps := 0; trace := [] |}.

(** The state after the selection has checked [n] monitors. *)
Definition selected (stored : list snapshot) (n : nat) : state :=
  {| store := store_of stored; steps := S n; trace := [] |}.

Definition watch : list snapshot := [site_overdue; site_boundary; site_new].

(** All of [watch] answer 200. *)
Definition world_watch : world := world_of watch (answer 200).

(** [site_vanished] is still listed but no longer stored. *)
Definition world_vanished : world := world_of [site_vanished; site_new] (answer 200).

Definition world_bad_interval : world :=
  world_of [site_bad_interval; site_new] (answer 200).


Definition world_no_last_checked : world :=
  world_of [site_no_last_checked; site_new] (answer 200).

(** The server answers 999, as some sites do to clients they reject. *)
Definition world_999 : world := world_of [site_new] (answer 999).
End Scenario.

(** ** Start-up and the HTTP endpoints (lines 18-31 and 83-118) *)

(** A value of a JSON request body as Python reads it. [JCompound] is an
    array or an object, of which the endpoints observe only the truth
    value. *)
Inductive json : Type :=
| JNull
| JBool (b : bool)
| JInt (z : Z)
| JFloat (f : pyfloat)
| JStr (s : string)
| JCompound (nonempty : bool).

Definition of_json (j : json) : value :=
  match j with
  | JNull => VNone
  | JBool b => VBool b
  | JInt z => VInt z
  | JFloat f => VFloat f
  | JStr s => VStr s
  | JCompound nonempty => VOther nonempty
  end.

(** What [request.json] gives: it raises (no JSON body), or the body is
    not an object, so that [.get] raises, or it is an object. *)
Inductive request_body : Type :=
| BodyFails (e : exn)
| BodyNotObject
| BodyObject (data : gmap string json).

(** [data.get(key, default)] on the request object. *)
Definition json_get (data : gmap string json) (key : string) (default : json) : json :=
  match data !! key with
  | Some j => j
  | None => default
  end.

Inductive reply : Type :=
| ReplyHealth
| ReplyError (error : string)
| ReplyAdded (id : string)
| ReplyDeleted.

Record http_response : Type := mkResponse {
  resp_code : Z;
  resp_body : reply
}.

Inductive api_log : Type :=
| LogAddError (e : exn)
| LogDeleteError (monitor_id : string) (e : exn).

(** The Firestore client as the endpoints use it: the identifier that
    [document()] draws, the verdict of the client on a document path
    ([None]: accepted), the verdicts of the store on a [set] and on a
    [delete] ([None]: applied; a fault means the write was not applied),
    and the time the server substitutes for [SERVER_TIMESTAMP]. *)
Record firestore : Type := mkFirestore {
  auto_id : string;
  document_fault : ref -> option exn;
  set_fault : ref -> doc -> option exn;
  delete_fault : ref -> option exn;
  commit_time : Q
}.

(** What handling a request leaves behind. *)
Record handled : Type := mkHandled {
  response : http_response;
  store_after : gmap ref doc;
  logged : list api_log
}.

(** Lines 83-85. *)
Definition health_check : http_response :=
  {| resp_code := 200; resp_body := ReplyHealth |}.

Definition request_data (request_json : request_body) : outcome (gmap string json) :=
  match request_json with
  | BodyFails e => Raise e
  | BodyNotObject => Raise OtherError
  | BodyObject data => Ok data
  end.

(** [db.collection('users').document(uid).collection('monitors').document(id)]:
    a path element that is no string raises [TypeError]. *)
Definition document (fs : firestore) (uid : value) (id : string) : outcome ref :=
  match uid with
  | VStr u =>
      match document_fault fs (u, id) with
      | Some e => Raise e
      | None => Ok (u, id)
      end
  | _ => Raise TypeError
  end.

(** The dictionary of lines 97-101. *)
Definition new_monitor (name url : value) (interval : Z) : doc :=
  {[ "name"%string := name; "url"%string := url;
     "interval"%string := VInt interval;
     "status"%string := VStr "pending";
     "createdAt"%string := VSentinel;
     "lastChecked"%string := VInt 0 ]}.

(** Lines 91-102: the body of the [try] of [add_monitor]. *)
Definition add_monitor_try (fs : firestore) (request_json : request_body)
    (sigma : gmap ref doc) : outcome (http_response * gmap ref doc) :=
  match request_data request_json with
  | Raise e => Raise e
  | Ok data =>
      let uid := of_json (json_get data "uid" JNull) in
      let url := of_json (json_get data "url" JNull) in
      let name := of_json (json_get data "name" JNull) in
      let interval := of_json (json_get data "interval" (JInt 60)) in
      if negb (forallb truthy [uid; url; name]) then
        Ok ({| resp_code := 400; resp_body := ReplyError "Missing required fields." |},
            sigma)
      else
        match document fs uid (auto_id fs) with
        | Raise e => Raise e
        | Ok monitor_ref =>
            match py_int interval with
            | Raise e => Raise e
            | Ok i =>
                match set_fault fs monitor_ref (new_monitor name url i) with
                | Some e => Raise e
                | None =>
                    Ok ({| resp_code := 201; resp_body := ReplyAdded monitor_ref.2 |},
                        <[monitor_ref := resolve (commit_time fs) <$> new_monitor name url i]>
                          sigma)
                end
            end
        end
  end.

(** Lines 87-105. *)
Definition add_monitor (db : bool) (fs : firestore) (request_json : request_body)
    (sigma : gmap ref doc) : handled :=
  if negb db then
    {| response := {| resp_code := 503;
                      resp_body := ReplyError "Database service not available." |};
       store_after := sigma; logged := [] |}
  else
    match add_monitor_try fs request_json sigma with
    | Ok (resp, sigma') =>
        {| response := resp; store_after := sigma'; logged := [] |}
    | Raise e =>
        {| response := {| resp_code := 500;
                          resp_body := ReplyError "Failed to add monitor." |};
           store_after := sigma; logged := [LogAddError e] |}
    end.

(** Lines 111-115: the body of the [try] of [delete_monitor]; deleting a
    document that does not exist is no error. *)
Definition delete_monitor_try (fs : firestore) (monitor_id : string)
    (request_json : request_body) (sigma : gmap ref doc)
    : outcome (http_response * gmap ref doc) :=
  match request_data request_json with
  | Raise e => Raise e
  | Ok data =>
      let uid := of_json (json_get data "uid" JNull) in
      if negb (truthy uid) then
        Ok ({| resp_code := 400; resp_body := ReplyError "User ID is required." |},
            sigma)
      else
        match document fs uid monitor_id with
        | Raise e => Raise e
        | Ok monitor_ref =>
            match delete_fault fs monitor_ref with
            | Some e => Raise e
            | None =>
                Ok ({| resp_code := 200; resp_body := ReplyDeleted |},
                    delete monitor_ref sigma)
            end
        end
  end.

(** Lines 107-118. *)
Definition delete_monitor (db : bool) (fs : firestore) (monitor_id : string)
    (request_json : request_body) (sigma : gmap ref doc) : handled :=
  if negb db then
    {| response := {| resp_code := 503;
                      resp_body := ReplyError "Database service not available." |};
       store_after := sigma; logged := [] |}
  else
    match delete_monitor_try fs monitor_id request_json sigma with
    | Ok (resp, sigma') =>
        {| response := resp; store_after := sigma'; logged := [] |}
    | Raise e =>
        {| response := {| resp_code := 500;
                          resp_body := ReplyError "Failed to delete monitor." |};
           store_after := sigma; logged := [LogDeleteError monitor_id e] |}
    end.

Inductive init_log : Type :=
| WarnNoCredentials
| InfoInitialized
| ErrorInitializing (e : exn).

(** Lines 19-31: [db] after start-up, as a truth value, and what was
    logged. [service_account_str] is the value of the environment
    variable; [sdk] stands for parsing it, building the certificate,
    initialising the application and creating the client ([None]: none of
    them raised). *)
Definition init_firebase (service_account_str : option string)
    (sdk : string -> option exn) : bool * list init_log :=
  match service_account_str with
  | None => (false, [WarnNoCredentials])
  | Some str =>
      if String.eqb str "" then (false, [WarnNoCredentials])
      else
        match sdk str with
        | Some e => (false, [ErrorInitializing e])
        | None => (true, [InfoInitialized])
        end
  end.

(** A [lastChecked] from which a float cannot be subtracted. *)
Definition not_a_time (v : value) : bool :=
  match v with
  | VNone | VStr _ | VSentinel | VOther _ => true
  | _ => false
  end.

(** ** Concrete requests *)

Module ApiScenario.
Definition fs0 : firestore :=
  {| auto_id := "m1";
     document_fault := fun _ => None;
     set_fault := fun _ _ => None;
     delete_fault := fun _ => None;
     commit_time := Scenario.now0 |}.

Definition body_of (fields : list (string * json)) : request_body :=
  BodyObject (list_to_map fields).

Definition add_request : request_body :=
  body_of [("uid", JStr "alice"); ("url", JStr "https://new.example");
           ("name", JStr "New"); ("interval", JInt 120)]%string.

Definition add_request_no_name : request_body :=
  body_of [("uid", JStr "alice"); ("url", JStr "https://new.example")]%string.

Definition add_request_bad_interval : request_body :=
  body_of [("uid", JStr "alice"); ("url", JStr "https://new.example");
           ("name", JStr "New"); ("interval", JStr "soon")]%string.

Definition delete_request : request_body :=
  body_of [("uid", JStr "alice")]%string.

Definition store0 : gmap ref doc := Scenario.store_of [Scenario.site_overdue].

(** What [add_request] leaves in the store. *)
Definition added_doc : doc :=
  resolve Scenario.now0
    <$> new_monitor (VStr "New") (VStr "https://new.example") 120.




End ApiScenario.

(** * Properties *)

(** ** The built-in operations on examples *)

Example int_of_string_60 : int_of_string " 60 " = Some 60.
Proof. reflexivity. Qed.

Example int_of_string_neg : int_of_string "-1_000" = Some (-1000).
Proof. reflexivity. Qed.

Example int_of_string_abc : int_of_string "abc" = None.
Proof. reflexivity. Qed.

(** ** Arithmetic and the pure decision *)







(** ** Relations preserved by the worker

    A relation between the state before and the state after is preserved
    by the whole worker as soon as it is preserved by the primitive
    actions: advancing the step counter, logging, recording a probe, and
    updating [status] and [lastChecked] with ['up'] or ['down']. *)

Section Preservation.
Variable R : state -> state -> Prop.
Hypothesis R_refl : forall s, R s s.
Hypothesis R_trans : forall s1 s2 s3, R s1 s2 -> R s2 s3 -> R s1 s3.

Lemma preserves_ret {A} (a : A) : preserves R (ret a).
Proof. intros s. apply R_refl. Qed.

Lemma preserves_raise {A} (e : exn) : preserves R (@raise A e).
Proof. intros s. apply R_refl. Qed.

Lemma preserves_lift {A} (o : outcome A) : preserves R (lift o).
Proof. intros s. apply R_refl. Qed.

Lemma preserves_bind_post {A B} (Q : A -> Prop) (m : M A) (f : A -> M B) :
  preserves R m ->
  (forall s a, (m s).1 = Ok a -> Q a) ->
  (forall a, Q a -> preserves R (f a)) ->
  preserves R (bind m f).
Proof.
  intros Hm HQ Hf s. unfold bind.
  specialize (Hm s). specialize (HQ s).
  destruct (m s) as [[a | e] s1]; simpl in *; [| exact Hm].
  eapply R_trans; [exact Hm |]. apply Hf. apply HQ. reflexivity.
Qed.

Lemma preserves_bind {A B} (m : M A) (f : A -> M B) :
  preserves R m -> (forall a, preserves R (f a)) -> preserves R (bind m f).
Proof.
  intros Hm Hf. apply (preserves_bind_post (fun _ => True)); auto.
Qed.

Lemma preserves_try_except {A} (m : M A) (handled : exn -> bool) (h : exn -> M A) :
  preserves R m -> (forall e, preserves R (h e)) -> preserves R (try_except m handled h).
Proof.
  intros Hm Hh s. unfold try_except. specialize (Hm s).
  destruct (m s) as [[a | e] s1]; simpl in *; [exact Hm |].
  destruct (handled e); [| exact Hm].
  eapply R_trans; [exact Hm |]. apply Hh.
Qed.

Lemma preserves_for_each {A S} (body : A -> S -> M S) (l : list A) (acc : S) :
  (forall x a, preserves R (body x a)) -> preserves R (for_each body l acc).
Proof.
  intros Hbody. revert acc.
  induction l as [| x l IH]; intros acc; simpl.
  - apply preserves_ret.
  - apply preserves_bind; [apply Hbody | intros a; apply IH].
Qed.

Lemma preserves_for_stream {A S} (body : A -> S -> M S) (st : stream A) (acc : S) :
  (forall x a, preserves R (body x a)) -> preserves R (for_stream body st acc).
Proof.
  intros Hbody. unfold for_stream. apply preserves_bind.
  - apply preserves_for_each, Hbody.
  - intros a. destruct (failure st); [apply preserves_raise | apply preserves_ret].
Qed.

Section Worker.
Variable w : world.
Hypothesis R_tick : preserves R tick.
Hypothesis R_probe : forall r url res, preserves R (emit (EvProbe r url res)).
Hypothesis R_log : forall l, preserves R (emit (EvLog l)).
Hypothesis R_update : forall r status,
  status = "up"%string \/ status = "down"%string ->
  preserves R (update w r {[ "status"%string := VStr status;
                            "lastChecked"%string := VSentinel ]}).

Lemma preserves_check_monitor (m : snapshot) (acc : list snapshot) :
  preserves R (check_monitor w m acc).
Proof.
  unfold check_monitor, call_time.
  apply preserves_bind; [apply preserves_lift | intros i].
  apply preserves_bind.
  { apply preserves_bind; [apply R_tick | intros k; apply preserves_ret]. }
  intros now. apply preserves_bind; [apply preserves_lift | intros x].
  destruct (py_gt x i); apply preserves_ret.
Qed.

Lemma preserves_select_due : preserves R (select_due w).
Proof.
  unfold select_due, stream_users. apply preserves_bind.
  { apply preserves_bind; [apply R_tick | intros k; apply preserves_ret]. }
  intros users. apply preserves_for_stream. intros user acc.
  apply preserves_for_stream. intros m acc'. apply preserves_check_monitor.
Qed.

Lemma preserves_probe_status (r : ref) (url : value) :
  preserves R (probe_status w r url).
Proof.
  unfold probe_status. apply preserves_try_except.
  - apply preserves_bind; [apply R_tick | intros k].
    apply preserves_bind; [apply R_probe | intros _].
    destruct (requests_get w k url); [apply preserves_ret | apply preserves_raise].
  - intros e. apply preserves_ret.
Qed.

Lemma preserves_process_monitor (m : snapshot) (u : unit) :
  preserves R (process_monitor w m u).
Proof.
  unfold process_monitor. destruct (negb _); [apply preserves_ret |].
  apply (preserves_bind_post
           (fun status => status = "up"%string \/ status = "down"%string)).
  - apply preserves_probe_status.
  - intros s status. unfold probe_status, try_except, bind, tick, emit, ret, raise.
    simpl. destruct (requests_get w (steps s) _) as [c | e]; simpl.
    + destruct (response_ok c); intros [= <-]; auto.
    + destruct (is_request_exception e); simpl; [intros [= <-]; auto | done].
  - intros status Hst. apply preserves_bind; [apply R_update, Hst | intros _].
    apply R_log.
Qed.

Lemma preserves_cycle : preserves R (cycle w).
Proof.
  unfold cycle, run_cycle. apply preserves_try_except.
  - apply preserves_bind; [apply preserves_select_due | intros l].
    apply preserves_for_each. intros m u. apply preserves_process_monitor.
  - intros e. apply R_log.
Qed.

Hypothesis R_sleep : forall secs, preserves R (sleep secs).

Lemma preserves_loop_iteration (db : bool) : preserves R (loop_iteration w db).
Proof.
  unfold loop_iteration. destruct (negb db); [apply R_sleep |].
  apply preserves_bind; [apply preserves_cycle | intros _; apply R_sleep].
Qed.

Lemma preserves_iterate (db : bool) (n : nat) : preserves R (iterate w db n).
Proof.
  induction n as [| n IH]; simpl; [apply preserves_ret |].
  apply preserves_bind; [apply preserves_loop_iteration | intros _; exact IH].
Qed.

Lemma preserves_pinger_worker (db : bool) (n : nat) :
  preserves R (pinger_worker w db n).
Proof.
  unfold pinger_worker.
  apply preserves_bind; [apply R_log | intros _; apply preserves_iterate].
Qed.
End Worker.
End Preservation.

(** ** Three instances: silence, traces, frames *)

Lemma silent_refl (s : state) : silent s s.
Proof. split; reflexivity. Qed.

Lemma silent_trans (s1 s2 s3 : state) : silent s1 s2 -> silent s2 s3 -> silent s1 s3.
Proof. intros [H1 H2] [H3 H4]. split; congruence. Qed.

Lemma silent_tick : preserves silent tick.
Proof. intros s. split; reflexivity. Qed.

Lemma emits_refl (P : event -> Prop) (s : state) : emits P s s.
Proof. exists []. split; [by rewrite app_nil_r | constructor]. Qed.

Lemma emits_trans (P : event -> Prop) (s1 s2 s3 : state) :
  emits P s1 s2 -> emits P s2 s3 -> emits P s1 s3.
Proof.
  intros (e1 & H1 & F1) (e2 & H2 & F2). exists (e1 ++ e2). split.
  - rewrite H2, H1. by rewrite <- app_assoc.
  - apply Forall_app. split; assumption.
Qed.

Lemma emits_tick (P : event -> Prop) : preserves (emits P) tick.
Proof. intros s. exists []. split; [simpl; by rewrite app_nil_r | constructor]. Qed.

Lemma emits_emit (P : event -> Prop) (ev : event) :
  P ev -> preserves (emits P) (emit ev).
Proof. intros HP s. exists [ev]. split; [reflexivity | by repeat constructor]. Qed.

Lemma emits_update (P : event -> Prop) (w : world) (r : ref) (payload : doc) :
  (forall res, P (EvUpdate r payload res)) ->
  preserves (emits P) (update w r payload).
Proof.
  intros HP s. unfold update.
  destruct (update_fault w (steps s)) as [e |]; [| destruct (store s !! r)];
    simpl; eexists [_]; (split; [reflexivity | by repeat constructor]).
Qed.

Lemma emits_events_of {A} (P : event -> Prop) (m : M A) (s : state) :
  emits P s (m s).2 ->
  trace (m s).2 = trace s ++ events_of m s /\ Forall P (events_of m s).
Proof.
  intros (evs & Htr & HF). unfold events_of. rewrite Htr.
  rewrite drop_app_length. split; [reflexivity | exact HF].
Qed.

Lemma doc_frame_refl (d : doc) : doc_frame d d.
Proof. split; auto. Qed.

Lemma doc_frame_trans (d1 d2 d3 : doc) :
  doc_frame d1 d2 -> doc_frame d2 d3 -> doc_frame d1 d3.
Proof.
  intros [K1 S1] [K2 S2]. split.
  - intros key H1 H2. rewrite K2, K1; auto.
  - destruct S2 as [S2 | S2]; [rewrite S2; exact S1 | right; exact S2].
Qed.

Lemma store_frame_refl (s : state) : store_frame s s.
Proof.
  intros r. destruct (store s !! r); constructor. apply doc_frame_refl.
Qed.

Lemma store_frame_trans (s1 s2 s3 : state) :
  store_frame s1 s2 -> store_frame s2 s3 -> store_frame s1 s3.
Proof.
  intros H1 H2 r. specialize (H1 r). specialize (H2 r).
  destruct H1 as [d1 d2 Hd |]; inversion H2; subst; constructor.
  eapply doc_frame_trans; eauto.
Qed.

Lemma store_frame_same (s s' : state) : store s' = store s -> store_frame s s'.
Proof.
  intros Heq r. rewrite Heq. destruct (store s !! r); constructor.
  apply doc_frame_refl.
Qed.

Lemma store_frame_emit (ev : event) : preserves store_frame (emit ev).
Proof. intros s. by apply store_frame_same. Qed.

Lemma store_frame_tick : preserves store_frame tick.
Proof. intros s. by apply store_frame_same. Qed.

(** The document an update leaves behind. *)
Lemma update_doc_frame (now : Q) (status : string) (d : doc) :
  status = "up"%string \/ status = "down"%string ->
  doc_frame d
    ((resolve now <$> ({[ "status"%string := VStr status;
                          "lastChecked"%string := VSentinel ]} : doc)) ∪ d).
Proof.
  intros Hst. split.
  - intros key H1 H2. rewrite lookup_union, lookup_fmap.
    rewrite lookup_insert_ne by congruence.
    rewrite lookup_singleton_ne by congruence.
    simpl. by rewrite (left_id None _).
  - right. rewrite lookup_union, lookup_fmap, lookup_insert_eq. simpl.
    destruct Hst as [-> | ->]; [left | right];
      by destruct (d !! "status").
Qed.

Lemma store_frame_update (w : world) (r : ref) (status : string) :
  status = "up"%string \/ status = "down"%string ->
  preserves store_frame
    (update w r {[ "status"%string := VStr status;
                   "lastChecked"%string := VSentinel ]}).
Proof.
  intros Hst s. unfold update.
  destruct (update_fault w (steps s)) as [e |]; [by apply store_frame_same |].
  destruct (store s !! r) as [d |] eqn:Hd; [| by apply store_frame_same].
  intros r'. simpl. destruct (decide (r' = r)) as [-> | Hne].
  - rewrite lookup_insert_eq, Hd. constructor. by apply update_doc_frame.
  - rewrite lookup_insert_ne by congruence.
    destruct (store s !! r'); constructor. apply doc_frame_refl.
Qed.

(** ** The selection (lines 42-53) *)

Section Selection.
Variable w : world.

Lemma select_due_silent : preserves silent (select_due w).
Proof.
  apply preserves_select_due;
    [apply silent_refl | apply silent_trans | apply silent_tick].
Qed.

Lemma check_monitor_ok (m : snapshot) (acc L : list snapshot) (s s' : state) :
  check_monitor w m acc s = (Ok L, s') ->
  exists b, is_due (time_time w (steps s)) (to_dict m) = Ok b
            /\ L = acc ++ (if b then [m] else [])
            /\ steps s' = S (steps s).
Proof.
  unfold check_monitor, is_due, call_time, bind, lift, tick, ret. simpl.
  destruct (py_int _) as [i | e]; [| done]. simpl.
  destruct (py_sub _ _) as [x | e]; [| done]. simpl.
  destruct (py_gt x i); intros [= <- <-]; eexists; repeat split.
  by rewrite app_nil_r.
Qed.

Lemma check_monitor_raise (m : snapshot) (acc : list snapshot) (s : state) (e : exn) :
  is_due (time_time w (steps s)) (to_dict m) = Raise e ->
  (check_monitor w m acc s).1 = Raise e.
Proof.
  unfold check_monitor, is_due, call_time, bind, lift, tick, ret. simpl.
  destruct (py_int _) as [i | e']; [| by intros [= ->]]. simpl.
  destruct (py_sub _ _) as [x | e']; [done | by intros [= ->]].
Qed.

Lemma due_subset_app (k : nat) (ms1 ms2 : list snapshot) :
  due_subset w k (ms1 ++ ms2)
  = due_subset w k ms1 ++ due_subset w (k + length ms1) ms2.
Proof.
  revert k. induction ms1 as [| m ms1 IH]; intros k; simpl.
  - by rewrite Nat.add_0_r.
  - rewrite IH, <- app_assoc. do 3 f_equal. lia.
Qed.



(** The inner loop over the items of one stream of monitors. *)
Lemma scan_items_ok (ms : list snapshot) (acc L : list snapshot) (s s' : state) :
  for_each (check_monitor w) ms acc s = (Ok L, s') ->
  L = acc ++ due_subset w (steps s) ms
  /\ steps s' = (steps s + length ms)%nat
  /\ forall j m, ms !! j = Some m ->
       exists b, is_due (time_time w (steps s + j)) (to_dict m) = Ok b.
Proof.
  revert acc s. induction ms as [| m0 ms IH]; intros acc s; simpl.
  - intros [= <- <-]. rewrite app_nil_r, Nat.add_0_r. repeat split.
    intros j m Hj. done.
  - unfold bind at 1.
    destruct (check_monitor w m0 acc s) as [[acc1 | e] s1] eqn:Hc; [| done].
    apply check_monitor_ok in Hc as (b & Hb & -> & Hs1).
    intros (-> & Hs' & Hall)%IH. rewrite Hs1 in *. repeat split.
    + unfold due_at. rewrite Hb. by rewrite <- app_assoc.
    + lia.
    + intros [| j] m Hj; simpl in Hj.
      * injection Hj as <-. rewrite Nat.add_0_r. eauto.
      * replace (steps s + S j)%nat with (S (steps s) + j)%nat by lia.
        by apply Hall.
Qed.

Lemma scan_monitors_ok (st : stream snapshot) (acc L : list snapshot) (s s' : state) :
  for_stream (check_monitor w) st acc s = (Ok L, s') ->
  failure st = None
  /\ L = acc ++ due_subset w (steps s) (items st)
  /\ steps s' = (steps s + length (items st))%nat
  /\ forall j m, items st !! j = Some m ->
       exists b, is_due (time_time w (steps s + j)) (to_dict m) = Ok b.
Proof.
  unfold for_stream, bind.
  destruct (for_each _ _ _ _) as [[acc1 | e] s1] eqn:Hc; [| done].
  apply scan_items_ok in Hc as (-> & Hs1 & Hall).
  destruct (failure st); [done |]. intros [= <- <-]. auto.
Qed.

(** The outer loop over the users. *)
Lemma scan_users_ok (us : list user_doc) (acc L : list snapshot) (s s' : state) :
  for_each (fun user monitors_to_check =>
              for_stream (check_monitor w) (monitors_stream user) monitors_to_check)
           us acc s = (Ok L, s') ->
  Forall (fun user => failure (monitors_stream user) = None) us
  /\ L = acc ++ due_subset w (steps s) (flat_monitors (mkStream us None))
  /\ steps s' = (steps s + length (flat_monitors (mkStream us None)))%nat
  /\ forall j m, flat_monitors (mkStream us None) !! j = Some m ->
       exists b, is_due (time_time w (steps s + j)) (to_dict m) = Ok b.
Proof.
  unfold flat_monitors. simpl.
  revert acc s. induction us as [| u us IH]; intros acc s; simpl.
  - intros [= <- <-]. rewrite app_nil_r, Nat.add_0_r. repeat split; [constructor |].
    intros j m Hj. done.
  - unfold bind at 1.
    destruct (for_stream _ _ _ _) as [[acc1 | e] s1] eqn:Hc; [| done].
    apply scan_monitors_ok in Hc as (Hf & Hacc1 & Hs1 & Hall1).
    intros Hrest. apply IH in Hrest as (HF & HL & Hs' & Hall).
    subst acc1 L. rewrite Hs1 in Hs', Hall |- *. repeat split.
    + by constructor.
    + by rewrite due_subset_app, app_assoc.
    + rewrite length_app, Hs', Nat.add_assoc. reflexivity.
    + intros j m Hj.
      destruct (decide (j < length (items (monitors_stream u)))%nat) as [Hlt | Hge].
      * rewrite lookup_app_l in Hj by exact Hlt. by apply Hall1.
      * rewrite lookup_app_r in Hj by lia.
        apply Hall in Hj as [b Hb]. exists b.
        rewrite <- Hb. do 2 f_equal. lia.
Qed.

(** What a selection that ends normally has done: the enumeration did
    not fail, every monitor was checked without an exception, the
    [j]-th at step [S (steps s) + j], and the due ones were kept. *)
Lemma select_due_ok (s s' : state) (L : list snapshot) :
  select_due w s = (Ok L, s') ->
  stream_fails (users_stream w (steps s)) = false
  /\ L = due_subset w (S (steps s)) (flat_monitors (users_stream w (steps s)))
  /\ forall j m, flat_monitors (users_stream w (steps s)) !! j = Some m ->
       exists b, is_due (time_time w (S (steps s) + j)) (to_dict m) = Ok b.
Proof.
  unfold select_due, stream_users, for_stream.
  unfold bind at 1 2. unfold tick, ret. simpl. unfold bind.
  destruct (for_each _ _ _ _) as [[acc1 | e] s1] eqn:Hc; [| done].
  apply scan_users_ok in Hc as (HF & -> & Hs1 & Hall). simpl in *.
  destruct (failure (users_stream w (steps s))) eqn:Hfail; [done |].
  intros [= <- <-]. repeat split; [| exact Hall].
  unfold stream_fails. rewrite Hfail. simpl.
  apply not_true_is_false. intros (u & Hu & Hd)%existsb_exists.
  apply bool_decide_eq_true in Hd.
  rewrite Forall_forall in HF. apply Hd, HF. by apply list_elem_of_In.
Qed.


End Selection.

(** ** Traces of composed computations *)

Lemma extends_trace {A} (m : M A) (s : state) :
  extends m -> trace (m s).2 = trace s ++ events_of m s.
Proof. intros Hm. by apply (emits_events_of (fun _ => True)). Qed.

Lemma events_of_bind {A B} (m : M A) (f : A -> M B) (s : state) :
  extends m -> (forall a, extends (f a)) ->
  events_of (bind m f) s
  = events_of m s ++ match m s with
                     | (Ok a, s1) => events_of (f a) s1
                     | (Raise _, _) => []
                     end.
Proof.
  intros Hm Hf. pose proof (extends_trace m s Hm) as Htr.
  unfold events_of at 1. unfold bind.
  destruct (m s) as [[a | e] s1] eqn:Hms; simpl in *.
  - rewrite (extends_trace (f a) s1 (Hf a)), Htr, <- app_assoc.
    by rewrite drop_app_length.
  - rewrite Htr, app_nil_r. by rewrite drop_app_length.
Qed.

Lemma events_of_emit (ev : event) (s : state) : events_of (emit ev) s = [ev].
Proof. unfold events_of, emit. simpl. by rewrite drop_app_length. Qed.

Lemma events_of_silent {A} (m : M A) (s : state) :
  silent s (m s).2 -> events_of m s = [].
Proof.
  intros [_ Htr]. unfold events_of. rewrite Htr. apply drop_all.
Qed.

Lemma for_each_app {A S} (body : A -> S -> M S) (l1 l2 : list A) (acc : S) (s : state) :
  for_each body (l1 ++ l2) acc s
  = match for_each body l1 acc s with
    | (Ok acc', s1) => for_each body l2 acc' s1
    | (Raise e, s1) => (Raise e, s1)
    end.
Proof.
  revert acc s. induction l1 as [| x l1 IH]; intros acc s; simpl; [done |].
  unfold bind. destruct (body x acc s) as [[acc1 | e] s1]; [apply IH | done].
Qed.

(** ** The dispatch (lines 55-72) *)

Section Dispatch.
Variable w : world.

Lemma worker_emits_process (P : event -> Prop) (m : snapshot) (u : unit) :
  (forall r url res, P (EvProbe r url res)) ->
  (forall r payload res, P (EvUpdate r payload res)) ->
  (forall url status, P (EvLog (LogPinged url status))) ->
  preserves (emits P) (process_monitor w m u).
Proof.
  intros HP HU HL. unfold process_monitor.
  destruct (negb _); [apply preserves_ret, emits_refl |].
  apply preserves_bind; [apply emits_trans | |].
  - apply preserves_probe_status;
      [apply emits_refl | apply emits_trans | apply emits_tick |].
    intros r url res. apply emits_emit, HP.
  - intros status. apply preserves_bind; [apply emits_trans | |].
    + apply emits_update. intros res. apply HU.
    + intros _. apply emits_emit, HL.
Qed.

Lemma extends_process_monitor (m : snapshot) (u : unit) :
  extends (process_monitor w m u).
Proof. by apply worker_emits_process. Qed.

Lemma extends_process_all (L : list snapshot) (u : unit) :
  extends (for_each (process_monitor w) L u).
Proof.
  apply preserves_for_each; [apply emits_refl | apply emits_trans |].
  intros m u'. apply extends_process_monitor.
Qed.

Lemma probe_status_run (r : ref) (url : value) (s : state) :
  probe_status w r url s
  = (status_of (requests_get w (steps s) url),
     {| store := store s; steps := S (steps s);
        trace := trace s ++ [EvProbe r url (requests_get w (steps s) url)] |}).
Proof.
  unfold probe_status, try_except, bind, tick, emit, ret, raise, status_of. simpl.
  destruct (requests_get w (steps s) url) as [c | e]; simpl; [done |].
  by destruct (is_request_exception e).
Qed.


(** A monitor without URL is passed over: nothing happens at all. *)
Lemma process_monitor_skip (m : snapshot) (u : unit) (s : state) :
  has_url m = false -> process_monitor w m u s = (Ok tt, s).
Proof.
  unfold has_url, process_monitor. intros ->. reflexivity.
Qed.

(** Processing a monitor that has a URL, written out: the probe, then
    the update, then the log record. *)
Lemma process_monitor_run (m : snapshot) (u : unit) (s : state) :
  has_url m = true ->
  process_monitor w m u s
  = let url := dict_get (to_dict m) "url" VNone in
    let r := reference m in
    let res := requests_get w (steps s) url in
    match status_of res with
    | Raise e =>
        (Raise e, {| store := store s; steps := S (steps s);
                     trace := trace s ++ [EvProbe r url res] |})
    | Ok status =>
        match update_fault w (S (steps s)), store s !! r with
        | Some e, _ =>
            (Raise e,
             {| store := store s; steps := S (S (steps s));
                trace := trace s ++ [EvProbe r url res;
                                     EvUpdate r (status_update status) (Some e)] |})
        | None, None =>
            (Raise NotFound,
             {| store := store s; steps := S (S (steps s));
                trace := trace s ++ [EvProbe r url res;
                                     EvUpdate r (status_update status) (Some NotFound)] |})
        | None, Some d =>
            (Ok tt,
             {| store := <[r := (resolve (server_time w (S (steps s)))
                                   <$> status_update status) ∪ d]> (store s);
                steps := S (S (steps s));
                trace := trace s ++ [EvProbe r url res;
                                     EvUpdate r (status_update status) None;
                                     EvLog (LogPinged url status)] |})
        end
    end.
Proof.
  unfold has_url, process_monitor. intros ->. cbn [negb].
  unfold bind at 1. rewrite probe_status_run.
  destruct (status_of _) as [status | e]; [| done].
  unfold bind, update, emit. simpl.
  destruct (update_fault w (S (steps s))) as [e |];
    [| destruct (store s !! reference m)]; simpl;
    by rewrite <- ?app_assoc.
Qed.

(** What processing one monitor appends to the trace. *)
Lemma process_monitor_events (m : snapshot) (u : unit) (s : state) :
  let evs := events_of (process_monitor w m u) s in
  probed evs = (if has_url m then [reference m] else [])
  /\ written evs
     = (if has_url m && is_ok (process_monitor w m u s).1 then [reference m] else [])
  /\ update_calls evs ⊆ [reference m]
  /\ error_logs evs = [] /\ sleeps evs = [].
Proof.
  destruct (has_url m) eqn:Hurl.
  - unfold events_of. rewrite process_monitor_run by exact Hurl. cbn zeta.
    destruct (status_of _) as [status | e];
      [destruct (update_fault w (S (steps s))) as [e |];
       [| destruct (store s !! reference m)] |];
      cbn; rewrite drop_app_length; cbn; repeat split; set_solver.
  - assert (events_of (process_monitor w m u) s = []) as Hev.
    { apply events_of_silent. rewrite process_monitor_skip by exact Hurl.
      apply silent_refl. }
    cbn zeta. rewrite Hev. cbn. repeat split; set_solver.
Qed.






(** The dispatch, counted: the monitors written are those with a URL
    among the first [n] of the list, the monitors probed those among the
    first [n']; the whole list if no exception ended the loop. *)
Lemma process_all_counts (L : list snapshot) (s : state) :
  exists n n' : nat,
    (n <= n' <= length L)%nat
    /\ written (events_of (for_each (process_monitor w) L tt) s)
       = reference <$> filter has_url (take n L)
    /\ probed (events_of (for_each (process_monitor w) L tt) s)
       = reference <$> filter has_url (take n' L)
    /\ (is_ok (for_each (process_monitor w) L tt s).1 = true -> n = length L)
    /\ error_logs (events_of (for_each (process_monitor w) L tt) s) = []
    /\ sleeps (events_of (for_each (process_monitor w) L tt) s) = [].
Proof.
  revert s. induction L as [| m L IH]; intros s.
  - exists 0%nat, 0%nat. rewrite events_of_silent by apply silent_refl.
    simpl. repeat split; lia.
  - cbn [for_each]. rewrite events_of_bind;
      [| apply extends_process_monitor | intros a; apply extends_process_all].
    destruct (process_monitor_events m tt s) as (Hp & Hw & _ & He & Hs).
    unfold written, probed, error_logs, sleeps in *.
    rewrite !omap_app, Hp, Hw, He, Hs. unfold bind.
    destruct (process_monitor w m tt s) as [[[] | e] s1] eqn:Hpm; cbn [fst snd is_ok].
    + destruct (IH s1) as (n & n' & Hn & HW & HP & Hok & HE & HS).
      exists (S n), (S n'). rewrite HW, HP, HE, HS. cbn [take length].
      rewrite !filter_cons. destruct (has_url m); simpl;
        repeat split; try lia; try done; intros H; f_equal; auto.
    + assert (has_url m = true) as Hurl.
      { destruct (has_url m) eqn:Hurl; [done |].
        rewrite process_monitor_skip in Hpm by exact Hurl. done. }
      exists 0%nat, 1%nat. rewrite Hurl. cbn [take length].
      rewrite filter_cons, Hurl. simpl. repeat split; try lia; done.
Qed.

(** ** The cycle (lines 41-74) *)

Lemma cycle_run (s : state) :
  cycle w s
  = match select_due w s with
    | (Raise e, s1) => (Ok tt, (emit (EvLog (LogLoopError e)) s1).2)
    | (Ok L, s1) =>
        match for_each (process_monitor w) L tt s1 with
        | (Raise e, s2) => (Ok tt, (emit (EvLog (LogLoopError e)) s2).2)
        | (Ok u, s2) => (Ok u, s2)
        end
    end.
Proof.
  unfold cycle, run_cycle, try_except, bind.
  destruct (select_due w s) as [[L | e] s1]; [| done].
  by destruct (for_each _ _ _ _) as [[u | e] s2].
Qed.

(** The exception handler of the cycle catches everything. *)
Lemma cycle_returns (s : state) : (cycle w s).1 = Ok tt.
Proof.
  rewrite cycle_run. destruct (select_due w s) as [[L | e] s1]; [| done].
  by destruct (for_each _ _ _ _) as [[[] | e] s2].
Qed.

Lemma extends_cycle : extends (cycle w).
Proof.
  apply preserves_cycle;
    [apply emits_refl | apply emits_trans | apply emits_tick | ..];
    intros; (apply emits_emit || apply emits_update); done.
Qed.

(** The events of a cycle whose selection ends normally: those of the
    dispatch, then the error log if the dispatch raised. *)
Lemma cycle_events (s s1 : state) (L : list snapshot) :
  select_due w s = (Ok L, s1) ->
  events_of (cycle w) s
  = events_of (for_each (process_monitor w) L tt) s1
    ++ match (for_each (process_monitor w) L tt s1).1 with
       | Ok _ => []
       | Raise e => [EvLog (LogLoopError e)]
       end.
Proof.
  intros Hsel. pose proof (select_due_silent w s) as [_ Htr].
  rewrite Hsel in Htr. simpl in Htr.
  unfold events_of at 1. rewrite cycle_run, Hsel, <- Htr.
  pose proof (extends_trace _ s1 (extends_process_all L tt)) as Hex.
  destruct (for_each _ _ _ _) as [[u | e] s2]; simpl in *.
  - by rewrite Hex, drop_app_length, app_nil_r.
  - by rewrite Hex, <- app_assoc, drop_app_length.
Qed.

(** The events of a cycle whose selection raises: the error log. *)
Lemma cycle_events_raise (s : state) (e : exn) :
  (select_due w s).1 = Raise e ->
  events_of (cycle w) s = [EvLog (LogLoopError e)]
  /\ store (cycle w s).2 = store s.
Proof.
  intros Hsel. pose proof (select_due_silent w s) as [Hst Htr].
  unfold events_of. rewrite cycle_run.
  destruct (select_due w s) as [[L | e'] s1]; simpl in *; [done |].
  injection Hsel as ->. rewrite Htr, Hst. by rewrite drop_app_length.
Qed.
End Dispatch.

(** ** Reading the trace of a cycle *)





Lemma filter_complement_length (L : list snapshot) :
  (length (filter has_url L)
   + length (filter (fun m => has_url m = false) L) = length L)%nat.
Proof.
  induction L as [| m L IH]; [done |].
  rewrite !filter_cons. destruct (has_url m) eqn:Hurl; simpl; lia.
Qed.

Section Cycle.
Variable w : world.



(** One iteration with [db] set: the cycle, then five seconds. *)
Lemma loop_iteration_events (s : state) :
  (loop_iteration w true s).1 = Ok tt
  /\ events_of (loop_iteration w true) s = events_of (cycle w) s ++ [EvSleep 5]
  /\ store (loop_iteration w true s).2 = store (cycle w s).2.
Proof.
  unfold loop_iteration, sleep. cbn [negb].
  pose proof (cycle_returns w s) as Hret.
  rewrite events_of_bind;
    [| apply extends_cycle | intros a; apply emits_emit; done].
  unfold bind. destruct (cycle w s) as [[[] | e] s1]; simpl in *; [| done].
  by rewrite events_of_emit.
Qed.

(** When the selection raises, the iteration logs the error and
    sleeps; nothing else happens. *)
Lemma loop_iteration_select_raises (s : state) (e : exn) :
  (select_due w s).1 = Raise e ->
  (loop_iteration w true s).1 = Ok tt
  /\ events_of (loop_iteration w true) s = [EvLog (LogLoopError e); EvSleep 5]
  /\ store (loop_iteration w true s).2 = store s.
Proof.
  intros Hsel. destruct (loop_iteration_events s) as (Hok & Hev & Hst).
  destruct (cycle_events_raise w s e Hsel) as [Hcev Hcst].
  rewrite Hev, Hst, Hcev, Hcst. done.
Qed.

(** A dispatch that raises at monitor [m], after [pre]. *)
Lemma process_all_raise (pre post : list snapshot) (m : snapshot)
    (s1 s2 : state) (e : exn) :
  for_each (process_monitor w) pre tt s1 = (Ok tt, s2) ->
  (process_monitor w m tt s2).1 = Raise e ->
  for_each (process_monitor w) (pre ++ m :: post) tt s1
  = (Raise e, (process_monitor w m tt s2).2)
  /\ for_each (process_monitor w) (pre ++ [m]) tt s1
     = (Raise e, (process_monitor w m tt s2).2).
Proof.
  intros Hpre Hm. rewrite !for_each_app, Hpre. cbn [for_each]. unfold bind.
  destruct (process_monitor w m tt s2) as [[[] | e'] s3]; simpl in *; [done |].
  by injection Hm as ->.
Qed.
End Cycle.

(** * The stated properties *)



(** C3, as the code has it. For a monitor with a URL, when [requests.get]
    answers with a status code from 200 to 399 the probe yields ['up'];
    when it answers with a status code from 400 to 599, or raises a
    [RequestException] (connection refused, DNS failure, timeout, ...),
    the probe yields ['down']. The probe itself does not raise in these
    cases, and the status it yields is the one passed to the update. *)
Theorem probe_classification
    (w : world) (m : snapshot) (u : unit) (s : state) (status : string) :
  has_url m = true ->
  classified (requests_get w (steps s) (dict_get (to_dict m) "url" VNone)) status ->
  (probe_status w (reference m) (dict_get (to_dict m) "url" VNone) s).1 = Ok status
  /\ update_payloads (events_of (process_monitor w m u) s) = [status_update status]
  /\ update_calls (events_of (process_monitor w m u) s) = [reference m].
Proof.
  intros Hurl Hcl.
  assert (status_of (requests_get w (steps s) (dict_get (to_dict m) "url" VNone))
          = Ok status) as Hst.
  { inversion Hcl as [c Hc Hres | c Hc Hres | k Hres]; simpl; [| | done].
    - unfold response_ok. replace (400 <=? c) with false by lia. done.
    - unfold response_ok. replace (400 <=? c) with true by lia.
      replace (c <? 600) with true by lia. done. }
  split; [by rewrite probe_status_run |].
  unfold events_of. rewrite process_monitor_run by exact Hurl. cbn zeta.
  rewrite Hst.
  destruct (update_fault w (S (steps s))) as [e |];
    [| destruct (store s !! reference m)];
    cbn; rewrite drop_app_length; done.
Qed.

(** C4, as the code has it. A cycle that selects the monitors [L] writes
    at most [length L] documents, writes and probes no monitor twice, and
    writes exactly the monitors with a URL among the first [n] of [L] for
    some [n]; when no error is logged, these are all of [L] except the
    monitors without URL. *)
Theorem cycle_writes_bounded
    (w : world) (s s1 : state) (L : list snapshot) :
  select_due w s = (Ok L, s1) ->
  NoDup (reference <$> L) ->
  (length (written (events_of (cycle w) s)) <= length L)%nat
  /\ NoDup (written (events_of (cycle w) s))
  /\ NoDup (probed (events_of (cycle w) s))
  /\ (exists n : nat,
        (n <= length L)%nat
        /\ written (events_of (cycle w) s) = reference <$> filter has_url (take n L))
  /\ (error_logs (events_of (cycle w) s) = [] ->
      written (events_of (cycle w) s) = reference <$> filter has_url L
      /\ (length (written (events_of (cycle w) s))
          + length (filter (fun m => has_url m = false) L) = length L)%nat).
Proof.
  intros Hsel Hnd.
  destruct (process_all_counts w L s1) as (n & n' & Hn & HW & HP & Hok & HE & _).
  rewrite (cycle_events w s s1 L Hsel).
  unfold written, probed, error_logs in *. rewrite !omap_app, HW, HP, HE.
  assert (forall k, reference <$> filter has_url (take k L)
                    `sublist_of` reference <$> L) as Hsub.
  { intros k. apply fmap_sublist.
    etrans; [apply sublist_filter | apply sublist_take]. }
  destruct (for_each _ _ _ _).1 as [[] | e] eqn:Hres; simpl; rewrite ?app_nil_r.
  - assert (n = length L) as -> by (by apply Hok).
    assert (n' = length L) as -> by lia.
    rewrite firstn_all. repeat split.
    + rewrite length_fmap. pose proof (filter_complement_length L). lia.
    + eapply sublist_NoDup; [exact Hnd | rewrite <- (firstn_all L) at 1; apply Hsub].
    + eapply sublist_NoDup; [exact Hnd | rewrite <- (firstn_all L) at 1; apply Hsub].
    + exists (length L). by rewrite firstn_all.
    + rewrite length_fmap. apply filter_complement_length.
  - repeat split.
    + rewrite <- (length_fmap reference L). apply sublist_length, Hsub.
    + eapply sublist_NoDup; [exact Hnd | apply Hsub].
    + eapply sublist_NoDup; [exact Hnd | apply Hsub].
    + exists n. split; [lia | done].
    + done.
    + done.
Qed.

(** C5. When the enumeration of the monitors fails, the iteration of the
    loop returns normally, issues no update call and leaves the store as
    it is: all it does is log the error and sleep five seconds. *)
Theorem enumeration_failure_skips_cycle (w : world) (s : state) :
  stream_fails (users_stream w (steps s)) = true ->
  (loop_iteration w true s).1 = Ok tt
  /\ update_calls (events_of (loop_iteration w true) s) = []
  /\ written (events_of (loop_iteration w true) s) = []
  /\ store (loop_iteration w true s).2 = store s
  /\ exists e : exn,
       events_of (loop_iteration w true) s = [EvLog (LogLoopError e); EvSleep 5].
Proof.
  intros Hfail.
  destruct (select_due w s) as [[L | e] s1] eqn:Hsel.
  { apply select_due_ok in Hsel as (Hnf & _). congruence. }
  destruct (loop_iteration_select_raises w s e) as (Hok & Hev & Hst).
  { by rewrite Hsel. }
  rewrite Hev. repeat split; try done. by exists e.
Qed.

(** C6, as the code has it. When the update of a due monitor [m] fails
    because its document no longer exists, the exception ends the
    dispatch of that cycle: the iteration returns normally, the writes
    made for the monitors before [m] are kept, the trace of the iteration
    ends with the probe of [m], its failed update, the error log and the
    five-second sleep, and the store is as the monitors before [m] left
    it, so that the monitors after [m] are neither probed nor written. *)
Theorem vanished_monitor_ends_dispatch
    (w : world) (s s1 s2 : state) (pre post : list snapshot) (m : snapshot)
    (status : string) :
  select_due w s = (Ok (pre ++ m :: post), s1) ->
  for_each (process_monitor w) pre tt s1 = (Ok tt, s2) ->
  has_url m = true ->
  status_of (requests_get w (steps s2) (dict_get (to_dict m) "url" VNone)) = Ok status ->
  update_fault w (S (steps s2)) = None ->
  store s2 !! reference m = None ->
  (loop_iteration w true s).1 = Ok tt
  /\ events_of (loop_iteration w true) s
     = events_of (for_each (process_monitor w) pre tt) s1
       ++ [EvProbe (reference m) (dict_get (to_dict m) "url" VNone)
             (requests_get w (steps s2) (dict_get (to_dict m) "url" VNone));
           EvUpdate (reference m) (status_update status) (Some NotFound);
           EvLog (LogLoopError NotFound);
           EvSleep 5]
  /\ store (loop_iteration w true s).2 = store s2.
Proof.
  intros Hsel Hpre Hurl Hst Hfault Hgone.
  destruct (loop_iteration_events w s) as (Hok & Hev & Hstore).
  pose proof (process_monitor_run w m tt s2 Hurl) as Hrun.
  cbn zeta in Hrun. rewrite Hst, Hfault, Hgone in Hrun.
  destruct (process_all_raise w pre post m s1 s2 NotFound Hpre) as [Hall _].
  { by rewrite Hrun. }
  rewrite Hrun in Hall. cbn [snd] in Hall.
  split; [exact Hok |]. split.
  - rewrite Hev, (cycle_events w s s1 _ Hsel), Hall. cbn [fst].
    unfold events_of at 1. rewrite Hall. cbn [snd trace].
    pose proof (extends_trace _ s1 (extends_process_all w pre tt)) as Htr.
    rewrite Hpre in Htr. cbn [snd] in Htr.
    rewrite Htr, <- !app_assoc, drop_app_length, <- !app_assoc. reflexivity.
  - rewrite Hstore, cycle_run, Hsel, Hall. reflexivity.
Qed.

(** C7, as the code has it. A due monitor without URL is passed over in
    silence: processing it does nothing, and the dispatch goes on as if it
    were not on the list. A monitor whose interval does not read as an
    integer makes the selection raise: the iteration then returns
    normally, logs the error, sleeps five seconds, and has probed and
    written nothing. *)
Theorem malformed_monitor_handling (w : world) :
  (forall (pre post : list snapshot) (m : snapshot) (s : state),
      has_url m = false ->
      process_monitor w m tt s = (Ok tt, s)
      /\ for_each (process_monitor w) (pre ++ m :: post) tt s
         = for_each (process_monitor w) (pre ++ post) tt s)
  /\ (forall (s : state) (j : nat) (m : snapshot) (e : exn),
        flat_monitors (users_stream w (steps s)) !! j = Some m ->
        py_int (dict_get (to_dict m) "interval" (VInt 60)) = Raise e ->
        (loop_iteration w true s).1 = Ok tt
        /\ store (loop_iteration w true s).2 = store s
        /\ exists e' : exn,
             events_of (loop_iteration w true) s
             = [EvLog (LogLoopError e'); EvSleep 5]).
Proof.
  split.
  - intros pre post m s Hurl. split; [by apply process_monitor_skip |].
    rewrite !for_each_app.
    destruct (for_each (process_monitor w) pre tt s) as [[[] | e] s1]; [| done].
    cbn [for_each]. unfold bind. by rewrite process_monitor_skip.
  - intros s j m e Hj Hint.
    destruct (select_due w s) as [[L | e'] s1] eqn:Hsel.
    { apply select_due_ok in Hsel as (_ & _ & Hall).
      destruct (Hall j m Hj) as [b Hb]. unfold is_due in Hb.
      by rewrite Hint in Hb. }
    destruct (loop_iteration_select_raises w s e') as (Hok & Hev & Hst).
    { by rewrite Hsel. }
    repeat split; [exact Hok | exact Hst | by exists e'].
Qed.

(** C8. Whatever the worker does in [n] iterations, every update call it
    issues names exactly [status] and [lastChecked], with ['up'] or
    ['down'] as status; no document is created or deleted; in every
    document all other fields keep their value, and the status is either
    unchanged or ['up'] or ['down'] - so a status other than ['pending']
    never becomes ['pending']. *)
Theorem core_writes_status_and_last_checked_only
    (w : world) (db : bool) (n : nat) (s : state) :
  Forall status_and_last_checked_only (events_of (pinger_worker w db n) s)
  /\ (forall r : ref,
        option_Forall2 doc_frame
          (store s !! r) (store (pinger_worker w db n s).2 !! r))
  /\ (forall (r : ref) (d d' : doc),
        store s !! r = Some d ->
        store (pinger_worker w db n s).2 !! r = Some d' ->
        d' !! "status" = Some (VStr "pending") ->
        d !! "status" = Some (VStr "pending")).
Proof.
  assert (store_frame s (pinger_worker w db n s).2) as Hframe.
  { apply preserves_pinger_worker;
      [apply store_frame_refl | apply store_frame_trans | apply store_frame_tick
      | intros; apply store_frame_emit | intros; apply store_frame_emit
      | intros; by apply store_frame_update | intros; apply store_frame_emit]. }
  repeat split.
  - apply (emits_events_of status_and_last_checked_only).
    apply preserves_pinger_worker;
      [apply emits_refl | apply emits_trans | apply emits_tick
      | intros; by apply emits_emit | intros; by apply emits_emit
      | | intros; by apply emits_emit].
    intros r status Hst. apply emits_update. intros res. simpl. split.
    + rewrite dom_insert_L, dom_singleton_L. done.
    + rewrite lookup_insert_eq. destruct Hst as [-> | ->]; auto.
  - exact Hframe.
  - intros r d d' Hd Hd' Hpending. specialize (Hframe r).
    rewrite Hd, Hd' in Hframe. inversion Hframe as [? ? [_ Hst] |]; subst.
    destruct Hst as [Hst | [Hst | Hst]]; congruence.
Qed.



(** When [db] is not set at start-up the thread is not started at all
    (lines 78-80): the sixty-second branch of the loop is the behaviour of
    [pinger_worker] run with [db] unset. *)
Lemma pinger_thread_not_started (w : world) (n : nat) (s : state) :
  pinger_thread w false n s = (Ok tt, s).
Proof. reflexivity. Qed.

(** * The properties on concrete monitors *)

Section Instances.
Import Scenario.



(** A record without [lastChecked]: the default of the lookup is the
    write sentinel, the subtraction raises [TypeError] and the cycle
    ends before any monitor is probed. *)
Example missing_last_checked_raises :
  is_due now0 (to_dict site_no_last_checked) = Raise TypeError
  /\ events_of (cycle world_no_last_checked) (start [site_no_last_checked; site_new])
     = [EvLog (LogLoopError TypeError)].
Proof. split; vm_compute; reflexivity. Qed.


Lemma probe_classification_witness :
  (probe_status world_watch (reference site_new)
     (dict_get (to_dict site_new) "url" VNone) (start watch)).1 = Ok "up"%string
  /\ update_payloads (events_of (process_monitor world_watch site_new tt) (start watch))
     = [status_update "up"]
  /\ update_calls (events_of (process_monitor world_watch site_new tt) (start watch))
     = [reference site_new].
Proof.
  apply (probe_classification world_watch site_new tt (start watch) "up").
  - reflexivity.
  - apply (classified_reachable 200). lia.
Defined.

(** C3 fails as stated: the status code 999 is at least 400, yet
    [response.ok] holds of it and the status written is ['up']. *)
Lemma status_999_is_written_as_up :
  classified_as_stated
    (requests_get world_999 0 (dict_get (to_dict site_new) "url" VNone)) "down"
  /\ (probe_status world_999 (reference site_new)
        (dict_get (to_dict site_new) "url" VNone) (start [site_new])).1
     = Ok "up"%string
  /\ update_payloads (events_of (process_monitor world_999 site_new tt) (start [site_new]))
     = [status_update "up"].
Proof.
  split; [apply (stated_http_error 999); lia |].
  split; vm_compute; reflexivity.
Qed.

Lemma cycle_writes_bounded_witness :
  (length (written (events_of (cycle world_watch) (start watch))) <= 2)%nat
  /\ NoDup (written (events_of (cycle world_watch) (start watch)))
  /\ NoDup (probed (events_of (cycle world_watch) (start watch)))
  /\ (exists n : nat,
        (n <= 2)%nat
        /\ written (events_of (cycle world_watch) (start watch))
           = reference <$> filter has_url (take n [site_overdue; site_new]))
  /\ (error_logs (events_of (cycle world_watch) (start watch)) = [] ->
      written (events_of (cycle world_watch) (start watch))
      = reference <$> filter has_url [site_overdue; site_new]
      /\ (length (written (events_of (cycle world_watch) (start watch)))
          + length (filter (fun m => has_url m = false) [site_overdue; site_new])
          = 2)%nat).
Proof.
  apply (cycle_writes_bounded world_watch (start watch) (selected watch 3)
           [site_overdue; site_new]).
  - vm_compute. reflexivity.
  - compute_done.
Defined.

(** C4 fails as stated: two monitors are due, both have a URL, one of
    them was deleted after the enumeration; the specification allows one
    write less than two, the cycle performs none. *)
Lemma vanished_monitor_costs_the_later_writes :
  (select_due world_vanished (start [site_new])).1 = Ok [site_vanished; site_new]
  /\ has_url site_vanished = true
  /\ has_url site_new = true
  /\ store (start [site_new]) !! reference site_vanished = None
  /\ store (start [site_new]) !! reference site_new = Some (to_dict site_new)
  /\ written (events_of (cycle world_vanished) (start [site_new])) = []
  /\ length (written (events_of (cycle world_vanished) (start [site_new])))
     <> (2 - 1)%nat.
Proof. repeat split; try (vm_compute; reflexivity). vm_compute. discriminate. Qed.

Lemma enumeration_failure_skips_cycle_witness :
  (loop_iteration world_down true (start watch)).1 = Ok tt
  /\ update_calls (events_of (loop_iteration world_down true) (start watch)) = []
  /\ written (events_of (loop_iteration world_down true) (start watch)) = []
  /\ store (loop_iteration world_down true (start watch)).2 = store (start watch)
  /\ exists e : exn,
       events_of (loop_iteration world_down true) (start watch)
       = [EvLog (LogLoopError e); EvSleep 5].
Proof.
  apply (enumeration_failure_skips_cycle world_down (start watch)).
  reflexivity.
Defined.

Lemma vanished_monitor_ends_dispatch_witness :
  (loop_iteration world_vanished true (start [site_new])).1 = Ok tt
  /\ events_of (loop_iteration world_vanished true) (start [site_new])
     = events_of (for_each (process_monitor world_vanished) [] tt)
         (selected [site_new] 2)
       ++ [EvProbe (reference site_vanished)
             (dict_get (to_dict site_vanished) "url" VNone)
             (requests_get world_vanished (steps (selected [site_new] 2))
                (dict_get (to_dict site_vanished) "url" VNone));
           EvUpdate (reference site_vanished) (status_update "up") (Some NotFound);
           EvLog (LogLoopError NotFound);
           EvSleep 5]
  /\ store (loop_iteration world_vanished true (start [site_new])).2
     = store (selected [site_new] 2).
Proof.
  apply (vanished_monitor_ends_dispatch
           world_vanished (start [site_new]) (selected [site_new] 2)
           (selected [site_new] 2) [] [site_new] site_vanished "up").
  - vm_compute. reflexivity.
  - reflexivity.
  - reflexivity.
  - reflexivity.
  - reflexivity.
  - reflexivity.
Defined.

(** C6 fails as stated: the update of [site_vanished] fails with
    [NotFound], and [site_new], which is due, has a URL and exists, is
    neither probed nor written in that cycle. *)
Lemma monitor_after_vanished_one_is_not_probed :
  (select_due world_vanished (start [site_new])).1 = Ok [site_vanished; site_new]
  /\ update_payloads (events_of (cycle world_vanished) (start [site_new]))
     = [status_update "up"]
  /\ error_logs (events_of (cycle world_vanished) (start [site_new])) = [NotFound]
  /\ probed (events_of (cycle world_vanished) (start [site_new]))
     = [reference site_vanished]
  /\ store (cycle world_vanished (start [site_new])).2 !! reference site_new
     = Some (to_dict site_new).
Proof. repeat split; vm_compute; reflexivity. Qed.

Lemma malformed_monitor_handling_witness :
  (process_monitor world_watch site_no_url tt (start watch) = (Ok tt, start watch)
   /\ for_each (process_monitor world_watch) ([site_overdue] ++ site_no_url :: [site_new])
        tt (start watch)
      = for_each (process_monitor world_watch) ([site_overdue] ++ [site_new])
          tt (start watch))
  /\ ((loop_iteration world_bad_interval true (start [site_bad_interval; site_new])).1
      = Ok tt
      /\ store (loop_iteration world_bad_interval true
                  (start [site_bad_interval; site_new])).2
         = store (start [site_bad_interval; site_new])
      /\ exists e' : exn,
           events_of (loop_iteration world_bad_interval true)
             (start [site_bad_interval; site_new])
           = [EvLog (LogLoopError e'); EvSleep 5]).
Proof.
  split.
  - apply (proj1 (malformed_monitor_handling world_watch)
             [site_overdue] [site_new] site_no_url (start watch)).
    reflexivity.
  - apply (proj2 (malformed_monitor_handling world_bad_interval)
             (start [site_bad_interval; site_new]) 0%nat site_bad_interval ValueError).
    + reflexivity.
    + reflexivity.
Defined.

(** C7 fails as stated: the interval of [site_bad_interval] is no
    number; the cycle ends with the error log, and [site_new], which is
    due and has a URL, is not processed. And passing over a monitor
    without URL leaves no log record. *)
Lemma bad_interval_stops_the_cycle :
  events_of (cycle world_bad_interval) (start [site_bad_interval; site_new])
  = [EvLog (LogLoopError ValueError)]
  /\ is_due now0 (to_dict site_new) = Ok true
  /\ has_url site_new = true
  /\ events_of (process_monitor world_watch site_no_url tt) (start watch) = [].
Proof. repeat split; vm_compute; reflexivity. Qed.

Lemma core_writes_status_and_last_checked_only_witness :
  Forall status_and_last_checked_only
    (events_of (pinger_worker world_watch true 2) (start watch))
  /\ (forall r : ref,
        option_Forall2 doc_frame
          (store (start watch) !! r)
          (store (pinger_worker world_watch true 2 (start watch)).2 !! r))
  /\ (forall (r : ref) (d d' : doc),
        store (start watch) !! r = Some d ->
        store (pinger_worker world_watch true 2 (start watch)).2 !! r = Some d' ->
        d' !! "status" = Some (VStr "pending") ->
        d !! "status" = Some (VStr "pending")).
Proof.
  apply (core_writes_status_and_last_checked_only world_watch true 2 (start watch)).
Defined.


End Instances.

(** * Further properties of the worker *)

(** X1. The probe hands a [RequestException] to nobody: it returns ['up'] or
    ['down'], or raises an exception that is no [RequestException]. *)
Theorem probe_status_absorbs_request_exceptions
    (w : world) (r : ref) (url : value) (s : state) :
  match (probe_status w r url s).1 with
  | Ok status => status = "up"%string \/ status = "down"%string
  | Raise e => is_request_exception e = false
              /\ requests_get w (steps s) url = Fails e
  end.
Proof.
  rewrite probe_status_run. cbn [fst].
  destruct (requests_get w (steps s) url) as [c | e]; simpl.
  - destruct (response_ok c); auto.
  - destruct (is_request_exception e) eqn:He; auto.
Qed.

(** X2. The selection has no effect besides reading the clock and the
    streams: whether it returns or raises, the store and the trace are as
    before. *)
Theorem selection_has_no_effects (w : world) (s : state) :
  store (select_due w s).2 = store s
  /\ trace (select_due w s).2 = trace s
  /\ events_of (select_due w) s = [].
Proof.
  pose proof (select_due_silent w s) as [Hst Htr].
  repeat split; [exact Hst | exact Htr |].
  apply events_of_silent. by split.
Qed.

(** X3. A record whose [lastChecked] is missing, null, text or a compound
    value, listed anywhere in the enumeration, ends the cycle in the
    selection: the cycle returns normally, its whole trace is one error
    log, and the store is untouched - no monitor is probed. *)
Theorem unreadable_last_checked_aborts_cycle
    (w : world) (s : state) (j : nat) (m : snapshot) :
  flat_monitors (users_stream w (steps s)) !! j = Some m ->
  not_a_time (dict_get (to_dict m) "lastChecked" VSentinel) = true ->
  (cycle w s).1 = Ok tt
  /\ store (cycle w s).2 = store s
  /\ exists e : exn, events_of (cycle w) s = [EvLog (LogLoopError e)].
Proof.
  intros Hj Hbad. split; [apply cycle_returns |].
  destruct (select_due w s) as [[L | e] s1] eqn:Hsel.
  - apply select_due_ok in Hsel as (_ & _ & Hall).
    destruct (Hall j m Hj) as [b Hb]. unfold is_due in Hb.
    destruct (py_int _) as [i | e]; [| done].
    destruct (dict_get (to_dict m) "lastChecked" VSentinel)
      as [| ? | ? | ? | ? | ? | |]; simpl in *; done.
  - destruct (cycle_events_raise w s e) as [Hev Hst]; [by rewrite Hsel |].
    split; [exact Hst | by exists e].
Qed.



(** * Properties of start-up and of the endpoints *)

Lemma resolve_of_json (now : Q) (j : json) : resolve now (of_json j) = of_json j.
Proof. by destruct j. Qed.

Lemma add_monitor_try_frame (fs : firestore) (request_json : request_body)
    (sigma sigma' : gmap ref doc) (resp : http_response) :
  add_monitor_try fs request_json sigma = Ok (resp, sigma') ->
  (resp_code resp = 400 /\ sigma' = sigma)
  \/ (resp_code resp = 201
      /\ exists (u : string) (d : doc),
           resp_body resp = ReplyAdded (auto_id fs)
           /\ sigma' = <[(u, auto_id fs) := d]> sigma).
Proof.
  unfold add_monitor_try.
  destruct (request_data request_json) as [data | e]; [| done].
  destruct (negb _); [intros [= <- <-]; by left |].
  destruct (document fs _ _) as [r | e] eqn:Hdoc; [| done].
  destruct (py_int _) as [i | e]; [| done].
  destruct (set_fault fs r _); [done |]. intros [= <- <-]. right.
  unfold document in Hdoc. destruct (of_json _); try done.
  destruct (document_fault fs _); [done |]. injection Hdoc as <-.
  split; [done |]. eauto.
Qed.

(** X6. [add_monitor] answers 201, 400, 500 or 503 and logs exactly when it
    answers 500. Unless it answers 201 the store is as before, and when
    it does, only the document named by the new identifier differs. *)
Theorem add_monitor_changes_one_document
    (db : bool) (fs : firestore) (request_json : request_body)
    (sigma : gmap ref doc) :
  resp_code (response (add_monitor db fs request_json sigma)) ∈ [201; 400; 500; 503]
  /\ (resp_code (response (add_monitor db fs request_json sigma)) = 500
      <-> logged (add_monitor db fs request_json sigma) <> [])
  /\ (resp_code (response (add_monitor db fs request_json sigma)) <> 201 ->
      store_after (add_monitor db fs request_json sigma) = sigma)
  /\ (forall r : ref,
        r.2 <> auto_id fs ->
        store_after (add_monitor db fs request_json sigma) !! r = sigma !! r).
Proof.
  unfold add_monitor. destruct db; cbn [negb]; [| simpl; repeat split; set_solver].
  destruct (add_monitor_try fs request_json sigma) as [[resp sigma'] | e] eqn:Htry;
    cbn; [| repeat split; set_solver].
  apply add_monitor_try_frame in Htry
    as [[Hc ->] | (Hc & u & d & _ & ->)]; rewrite Hc.
  - repeat split; try done; set_solver.
  - repeat split; try done; [set_solver |].
    intros r Hr. apply lookup_insert_ne. intros <-. by apply Hr.
Qed.

(** X7. Validation comes first: when [uid], [url] or [name] is missing or
    falsy in the request object, the answer is 400, nothing is stored and
    nothing is logged, whatever the other fields and the store client. *)
Theorem add_monitor_requires_fields
    (fs : firestore) (data : gmap string json) (sigma : gmap ref doc) (key : string) :
  key ∈ ["uid"; "url"; "name"]%string ->
  truthy (of_json (json_get data key JNull)) = false ->
  add_monitor true fs (BodyObject data) sigma
  = {| response := {| resp_code := 400;
                      resp_body := ReplyError "Missing required fields." |};
       store_after := sigma; logged := [] |}.
Proof.
  intros Hkey Hfalsy. unfold add_monitor, add_monitor_try. cbn.
  assert (truthy (of_json (json_get data "uid" JNull))
          && (truthy (of_json (json_get data "url" JNull))
              && (truthy (of_json (json_get data "name" JNull)) && true)) = false)
    as ->; [| done].
  repeat (apply elem_of_cons in Hkey as [-> | Hkey]);
    [| | | by apply elem_of_nil in Hkey];
    rewrite Hfalsy; by rewrite ?andb_false_r.
Qed.

(** X8. A complete request with a readable interval that the client and the
    store accept is answered 201 with the new identifier; the document
    stored under it has exactly the six fields of lines 97-101: the name
    and URL as sent, the interval as an integer, status ['pending'],
    [lastChecked] 0 and the server's time as [createdAt]. *)
Theorem add_monitor_creates
    (fs : firestore) (data : gmap string json) (sigma : gmap ref doc)
    (u : string) (i : Z) :
  json_get data "uid" JNull = JStr u ->
  u <> ""%string ->
  truthy (of_json (json_get data "url" JNull)) = true ->
  truthy (of_json (json_get data "name" JNull)) = true ->
  py_int (of_json (json_get data "interval" (JInt 60))) = Ok i ->
  document_fault fs (u, auto_id fs) = None ->
  set_fault fs (u, auto_id fs)
    (new_monitor (of_json (json_get data "name" JNull))
       (of_json (json_get data "url" JNull)) i) = None ->
  response (add_monitor true fs (BodyObject data) sigma)
  = {| resp_code := 201; resp_body := ReplyAdded (auto_id fs) |}
  /\ logged (add_monitor true fs (BodyObject data) sigma) = []
  /\ exists d : doc,
       store_after (add_monitor true fs (BodyObject data) sigma) !! (u, auto_id fs)
       = Some d
       /\ dom d = ({[ "name"; "url"; "interval"; "status"; "createdAt";
                      "lastChecked" ]}%string : gset string)
       /\ d !! "name" = Some (of_json (json_get data "name" JNull))
       /\ d !! "url" = Some (of_json (json_get data "url" JNull))
       /\ d !! "interval" = Some (VInt i)
       /\ d !! "status" = Some (VStr "pending")
       /\ d !! "lastChecked" = Some (VInt 0)
       /\ d !! "createdAt" = Some (VTimestamp (commit_time fs)).
Proof.
  intros Huid Hne Hurl Hname Hint Hdoc Hset.
  unfold add_monitor, add_monitor_try. cbn.
  rewrite Huid, Hurl, Hname, Hint. cbn.
  assert (String.eqb u "" = false) as -> by (by apply String.eqb_neq).
  cbn. rewrite Hdoc, Hset. cbn.
  repeat split. eexists. split; [apply lookup_insert_eq |].
  unfold new_monitor. repeat split.
  - rewrite lookup_fmap, lookup_insert_eq. simpl. by rewrite resolve_of_json.
  - rewrite lookup_fmap, lookup_insert_ne, lookup_insert_eq by done.
    simpl. by rewrite resolve_of_json.
Qed.

(** X9. An interval that does not read as an integer is found only after the
    validation: the answer is 500, the exception is logged and nothing is
    stored. *)
Theorem add_monitor_unreadable_interval
    (fs : firestore) (data : gmap string json) (sigma : gmap ref doc)
    (u : string) (e : exn) :
  json_get data "uid" JNull = JStr u ->
  u <> ""%string ->
  truthy (of_json (json_get data "url" JNull)) = true ->
  truthy (of_json (json_get data "name" JNull)) = true ->
  document_fault fs (u, auto_id fs) = None ->
  py_int (of_json (json_get data "interval" (JInt 60))) = Raise e ->
  add_monitor true fs (BodyObject data) sigma
  = {| response := {| resp_code := 500;
                      resp_body := ReplyError "Failed to add monitor." |};
       store_after := sigma; logged := [LogAddError e] |}.
Proof.
  intros Huid Hne Hurl Hname Hdoc Hint.
  unfold add_monitor, add_monitor_try. cbn.
  rewrite Huid, Hurl, Hname, Hint. cbn.
  assert (String.eqb u "" = false) as -> by (by apply String.eqb_neq).
  cbn. by rewrite Hdoc.
Qed.


(** X11. [delete_monitor] answers 200, 400, 500 or 503 and logs exactly when
    it answers 500. Unless it answers 200 the store is as before; it never
    creates or changes a document, and only a document named by
    [monitor_id] can disappear. *)
Theorem delete_monitor_removes_at_most_one
    (db : bool) (fs : firestore) (monitor_id : string)
    (request_json : request_body) (sigma : gmap ref doc) :
  resp_code (response (delete_monitor db fs monitor_id request_json sigma))
    ∈ [200; 400; 500; 503]
  /\ (resp_code (response (delete_monitor db fs monitor_id request_json sigma)) = 500
      <-> logged (delete_monitor db fs monitor_id request_json sigma) <> [])
  /\ (resp_code (response (delete_monitor db fs monitor_id request_json sigma)) <> 200 ->
      store_after (delete_monitor db fs monitor_id request_json sigma) = sigma)
  /\ (forall (r : ref) (d : doc),
        store_after (delete_monitor db fs monitor_id request_json sigma) !! r = Some d ->
        sigma !! r = Some d)
  /\ (forall r : ref,
        r.2 <> monitor_id ->
        store_after (delete_monitor db fs monitor_id request_json sigma) !! r
        = sigma !! r).
Proof.
  unfold delete_monitor. destruct db; cbn [negb]; [| simpl; repeat split; set_solver].
  unfold delete_monitor_try.
  destruct (request_data request_json) as [data | e]; [| simpl; repeat split; set_solver].
  destruct (negb _); [simpl; repeat split; set_solver |].
  destruct (document fs _ _) as [r0 | e] eqn:Hdoc; [| simpl; repeat split; set_solver].
  destruct (delete_fault fs r0); [simpl; repeat split; set_solver |].
  unfold document in Hdoc. destruct (of_json _); try done.
  destruct (document_fault fs _); [done |]. injection Hdoc as <-.
  cbn. repeat split; try done; try set_solver.
  - intros r d Hr. by apply lookup_delete_Some in Hr as [_ ?].
  - intros r Hr. apply lookup_delete_ne. intros <-. by apply Hr.
Qed.

(** X12. A request that names the user, accepted by the client and the store,
    is answered 200 whether or not the document exists; afterwards the
    document is absent and all others are as before, a store that did not
    hold it is unchanged, and repeating the request changes nothing. *)
Theorem delete_monitor_deletes
    (fs : firestore) (monitor_id : string) (data : gmap string json)
    (sigma : gmap ref doc) (u : string) :
  json_get data "uid" JNull = JStr u ->
  u <> ""%string ->
  document_fault fs (u, monitor_id) = None ->
  delete_fault fs (u, monitor_id) = None ->
  response (delete_monitor true fs monitor_id (BodyObject data) sigma)
  = {| resp_code := 200; resp_body := ReplyDeleted |}
  /\ store_after (delete_monitor true fs monitor_id (BodyObject data) sigma)
       !! (u, monitor_id) = None
  /\ (forall r : ref,
        r <> (u, monitor_id) ->
        store_after (delete_monitor true fs monitor_id (BodyObject data) sigma) !! r
        = sigma !! r)
  /\ (sigma !! (u, monitor_id) = None ->
      store_after (delete_monitor true fs monitor_id (BodyObject data) sigma) = sigma)
  /\ delete_monitor true fs monitor_id (BodyObject data)
       (store_after (delete_monitor true fs monitor_id (BodyObject data) sigma))
     = delete_monitor true fs monitor_id (BodyObject data) sigma.
Proof.
  intros Huid Hne Hdoc Hdel.
  assert (forall sigma0,
            delete_monitor true fs monitor_id (BodyObject data) sigma0
            = {| response := {| resp_code := 200; resp_body := ReplyDeleted |};
                 store_after := delete (u, monitor_id) sigma0;
                 logged := [] |}) as Hrun.
  { intros sigma0. unfold delete_monitor, delete_monitor_try. cbn.
    rewrite Huid. cbn.
    assert (String.eqb u "" = false) as -> by (by apply String.eqb_neq).
    cbn. by rewrite Hdoc, Hdel. }
  rewrite !Hrun. cbn. repeat split.
  - apply lookup_delete_eq.
  - intros r Hr. by apply lookup_delete_ne.
  - apply delete_id.
  - by rewrite delete_delete_eq.
Qed.

(** X13. Adding a monitor under an identifier the store does not hold yet and
    deleting it with the identifier of the answer gives back the store as
    it was. *)
Theorem add_then_delete_restores_store
    (fs : firestore) (data data' : gmap string json) (sigma : gmap ref doc)
    (u : string) (i : Z) :
  json_get data "uid" JNull = JStr u ->
  u <> ""%string ->
  truthy (of_json (json_get data "url" JNull)) = true ->
  truthy (of_json (json_get data "name" JNull)) = true ->
  py_int (of_json (json_get data "interval" (JInt 60))) = Ok i ->
  document_fault fs (u, auto_id fs) = None ->
  set_fault fs (u, auto_id fs)
    (new_monitor (of_json (json_get data "name" JNull))
       (of_json (json_get data "url" JNull)) i) = None ->
  sigma !! (u, auto_id fs) = None ->
  json_get data' "uid" JNull = JStr u ->
  delete_fault fs (u, auto_id fs) = None ->
  resp_body (response (add_monitor true fs (BodyObject data) sigma))
  = ReplyAdded (auto_id fs)
  /\ store_after
       (delete_monitor true fs (auto_id fs) (BodyObject data')
          (store_after (add_monitor true fs (BodyObject data) sigma)))
     = sigma.
Proof.
  intros Huid Hne Hurl Hname Hint Hdoc Hset Hfresh Huid' Hdel.
  unfold delete_monitor, delete_monitor_try, add_monitor, add_monitor_try. cbn.
  rewrite Huid, Huid', Hurl, Hname, Hint. cbn.
  assert (String.eqb u "" = false) as -> by (by apply String.eqb_neq).
  cbn. rewrite Hdoc, Hset. cbn. rewrite Hdel. cbn.
  split; [done |]. by apply delete_insert_id.
Qed.


(** X15. [db] is set exactly when the environment variable holds a non-empty
    text on which none of the initialisation steps raises. When it is not
    set, the worker thread does nothing at all and both endpoints answer
    503 without touching the store. *)
Theorem service_needs_credentials
    (service_account_str : option string) (sdk : string -> option exn)
    (w : world) (n : nat) (s : state)
    (fs : firestore) (monitor_id : string) (request_json : request_body)
    (sigma : gmap ref doc) :
  ((init_firebase service_account_str sdk).1 = true
   <-> exists str : string,
         service_account_str = Some str /\ str <> ""%string /\ sdk str = None)
  /\ ((init_firebase service_account_str sdk).1 = false ->
      pinger_thread w (init_firebase service_account_str sdk).1 n s = (Ok tt, s)
      /\ resp_code (response (add_monitor (init_firebase service_account_str sdk).1
                                fs request_json sigma)) = 503
      /\ store_after (add_monitor (init_firebase service_account_str sdk).1
                        fs request_json sigma) = sigma
      /\ resp_code (response (delete_monitor (init_firebase service_account_str sdk).1
                                fs monitor_id request_json sigma)) = 503
      /\ store_after (delete_monitor (init_firebase service_account_str sdk).1
                        fs monitor_id request_json sigma) = sigma).
Proof.
  split.
  - unfold init_firebase. destruct service_account_str as [str |].
    + destruct (String.eqb_spec str "") as [-> | Hne]; cbn.
      * split; [done |]. by intros (str & [= <-] & Hne & _).
      * destruct (sdk str) eqn:Hsdk; cbn.
        -- split; [done |]. intros (str' & [= <-] & _ & Hs). congruence.
        -- split; [| done]. intros _. eauto.
    + cbn. split; [done |]. by intros (str & [=] & _).
  - intros ->. done.
Qed.





(** * The further properties on concrete monitors and requests *)

Section MoreInstances.
Import Scenario ApiScenario.

Lemma unreadable_last_checked_aborts_cycle_witness :
  (cycle world_no_last_checked (start [site_no_last_checked; site_new])).1 = Ok tt
  /\ store (cycle world_no_last_checked (start [site_no_last_checked; site_new])).2
     = store (start [site_no_last_checked; site_new])
  /\ exists e : exn,
       events_of (cycle world_no_last_checked) (start [site_no_last_checked; site_new])
       = [EvLog (LogLoopError e)].
Proof.
  apply (unreadable_last_checked_aborts_cycle world_no_last_checked
           (start [site_no_last_checked; site_new]) 0 site_no_last_checked).
  - reflexivity.
  - reflexivity.
Defined.



Lemma add_monitor_changes_one_document_witness :
  (resp_code (response (add_monitor true fs0 add_request_bad_interval store0)) <> 201 ->
   store_after (add_monitor true fs0 add_request_bad_interval store0) = store0)
  /\ store_after (add_monitor true fs0 add_request store0) !! reference site_overdue
     = store0 !! reference site_overdue.
Proof.
  split.
  - apply (add_monitor_changes_one_document true fs0 add_request_bad_interval store0).
  - apply (add_monitor_changes_one_document true fs0 add_request store0). done.
Defined.

Lemma add_monitor_requires_fields_witness :
  add_monitor true fs0 add_request_no_name store0
  = {| response := {| resp_code := 400;
                      resp_body := ReplyError "Missing required fields." |};
       store_after := store0; logged := [] |}.
Proof.
  apply (add_monitor_requires_fields fs0 _ store0 "name").
  - set_solver.
  - reflexivity.
Defined.

Lemma add_monitor_creates_witness :
  response (add_monitor true fs0 add_request store0)
  = {| resp_code := 201; resp_body := ReplyAdded "m1" |}
  /\ store_after (add_monitor true fs0 add_request store0) !! ("alice", "m1")%string
     = Some added_doc.
Proof.
  destruct (add_monitor_creates fs0
              (list_to_map [("uid", JStr "alice"); ("url", JStr "https://new.example");
                            ("name", JStr "New"); ("interval", JInt 120)]%string)
              store0 "alice" 120)
    as (Hresp & _ & _); try reflexivity; [done |].
  split; [exact Hresp | reflexivity].
Defined.

Lemma add_monitor_unreadable_interval_witness :
  add_monitor true fs0 add_request_bad_interval store0
  = {| response := {| resp_code := 500;
                      resp_body := ReplyError "Failed to add monitor." |};
       store_after := store0; logged := [LogAddError ValueError] |}.
Proof.
  apply (add_monitor_unreadable_interval fs0 _ store0 "alice" ValueError);
    try reflexivity. done.
Defined.


Lemma delete_monitor_removes_at_most_one_witness :
  store_after (delete_monitor true fs0 "m1" delete_request store0)
    !! reference site_overdue
  = store0 !! reference site_overdue.
Proof.
  apply (delete_monitor_removes_at_most_one true fs0 "m1" delete_request store0).
  done.
Defined.

Lemma delete_monitor_deletes_witness :
  response (delete_monitor true fs0 "overdue" delete_request store0)
  = {| resp_code := 200; resp_body := ReplyDeleted |}
  /\ store_after (delete_monitor true fs0 "overdue" delete_request store0)
       !! reference site_overdue = None.
Proof.
  destruct (delete_monitor_deletes fs0 "overdue"
              (list_to_map [("uid", JStr "alice")]%string) store0 "alice")
    as (Hresp & Hgone & _); try reflexivity; [done |].
  split; [exact Hresp | exact Hgone].
Defined.

Lemma add_then_delete_restores_store_witness :
  resp_body (response (add_monitor true fs0 add_request store0)) = ReplyAdded "m1"
  /\ store_after
       (delete_monitor true fs0 "m1" delete_request
          (store_after (add_monitor true fs0 add_request store0)))
     = store0.
Proof.
  apply (add_then_delete_restores_store fs0
           (list_to_map [("uid", JStr "alice"); ("url", JStr "https://new.example");
                         ("name", JStr "New"); ("interval", JInt 120)]%string)
           (list_to_map [("uid", JStr "alice")]%string) store0 "alice" 120);
    try reflexivity. done.
Defined.


Lemma service_needs_credentials_witness :
  (init_firebase (Some ""%string) (fun _ => None)).1 = false
  /\ pinger_thread world_watch (init_firebase (Some ""%string) (fun _ => None)).1 3
       (start watch) = (Ok tt, start watch)
  /\ resp_code (response (add_monitor (init_firebase (Some ""%string) (fun _ => None)).1
                            fs0 add_request store0)) = 503.
Proof.
  split; [reflexivity |].
  destruct (proj2 (service_needs_credentials (Some ""%string) (fun _ => None)
                     world_watch 3 (start watch) fs0 "m1" add_request store0))
    as (Hthread & Hadd & _); [reflexivity |].
  split; [exact Hthread | exact Hadd].
Defined.

End MoreInstances.
